(** * Liveness pipeline of the face-verification component

    Shallow embedding of the signal-processing core of
    [src/app/components/FaceVerification.tsx] and of its near-duplicate
    [src/unnamed/part_000]: eye aspect ratio, rolling baseline, blink
    detection, head movement, liveness score and guidance message, and the
    per-frame callback that drives them.

    JavaScript numbers are modelled as exact reals ([R]); NaN and infinities
    are outside the model.  Where a property turns on rounding, the
    computation is given again with every operation rounded ([getEARRnd])
    and on IEEE doubles ([DoubleModel]).  The React reference cells
    ([lastEARRef], [blinkCountRef], [lastPositionsRef]) and the two state
    hooks ([livenessScore], [message]) become the fields of one [State]
    record that every function takes and returns.  Canvas drawing is not
    modelled; the 2D context is taken to be available. *)

From Stdlib Require Import String DecimalString.
From Stdlib Require PrimFloat.
From Stdlib Require Import Reals Lra Lia List Arith Bool.
From Stdlib Require Import Permutation Sorted.
Import ListNotations.

Open Scope R_scope.

(** ** Numbers, booleans and arrays as the code uses them *)

(** [a < b] as a JavaScript boolean. *)
Definition Rltb (a b : R) : bool := if Rlt_dec a b then true else false.

(** [Array.prototype.push] followed by the [length > 10] / [shift()] guard
    that both files use for their two rolling windows. *)
Definition pushShift {A : Type} (arr : list A) (x : A) : list A :=
  let arr' := arr ++ [x] in
  if (10 <? length arr')%nat then tl arr' else arr'.

(** [arr.sort((a, b) => b - a)] on a copy: a descending sort. *)
Fixpoint insertDesc (x : R) (l : list R) : list R :=
  match l with
  | [] => [x]
  | y :: t => if Rle_dec y x then x :: l else y :: insertDesc x t
  end.

Fixpoint sortDesc (l : list R) : list R :=
  match l with
  | [] => []
  | x :: t => insertDesc x (sortDesc t)
  end.

(** [arr.reduce((a, b) => a + b, 0)]. *)
Definition sumR (l : list R) : R := fold_left Rplus l 0.

(** The decimal rendering of a counter inside a template string. *)
Definition showNat (n : nat) : string := NilEmpty.string_of_uint (Nat.to_uint n).

(** ** What the landmark detector hands over *)

Record Point : Type := mkPoint { px : R; py : R }.

(** The six contour points that [getLeftEye()] / [getRightEye()] return,
    in index order [eye[0]] .. [eye[5]]. *)
Record Eye : Type := mkEye {
  eye0 : Point; eye1 : Point; eye2 : Point;
  eye3 : Point; eye4 : Point; eye5 : Point
}.

(** [noseTip] stands for [landmarks.getNose()[0]]. *)
Record Landmarks : Type := mkLandmarks {
  getLeftEye : Eye;
  getRightEye : Eye;
  noseTip : Point
}.

Record Expressions : Type := mkExpressions {
  happy : R; surprised : R; neutral : R
}.

Record Detection : Type := mkDetection {
  landmarks : Landmarks;
  expressions : Expressions
}.

(** ** Geometry and eye aspect ratio (same text in both files) *)

Definition euclideanDistance (pt1 pt2 : Point) : R :=
  sqrt ((px pt2 - px pt1) ^ 2 + (py pt2 - py pt1) ^ 2).

(** [getEAR] (inner function of [calculateEAR]) in the component,
    [getEyeAspectRatio] in part_000. *)
Definition getEAR (eye : Eye) : R :=
  let v1 := euclideanDistance (eye1 eye) (eye5 eye) in
  let v2 := euclideanDistance (eye2 eye) (eye4 eye) in
  let h := euclideanDistance (eye0 eye) (eye3 eye) in
  if Rlt_dec 0 h then ((v1 + v2) / (2 * h)) * 1.5 else 0.

Definition calculateEAR (leftEye rightEye : Eye) : R :=
  (getEAR leftEye + getEAR rightEye) / 2.

(** The same computation with every division checked: [None] would be a
    division whose divisor is zero. *)
Definition checkedDiv (a b : R) : option R :=
  if Req_dec_T b 0 then None else Some (a / b).

Definition getEARChecked (eye : Eye) : option R :=
  let v1 := euclideanDistance (eye1 eye) (eye5 eye) in
  let v2 := euclideanDistance (eye2 eye) (eye4 eye) in
  let h := euclideanDistance (eye0 eye) (eye3 eye) in
  if Rlt_dec 0 h
  then option_map (fun q => q * 1.5) (checkedDiv (v1 + v2) (2 * h))
  else Some 0.

(** Every coordinate of the eye multiplied by [k]. *)
Definition scalePoint (k : R) (p : Point) : Point :=
  mkPoint (k * px p) (k * py p).

Definition scaleEye (k : R) (eye : Eye) : Eye :=
  mkEye (scalePoint k (eye0 eye)) (scalePoint k (eye1 eye))
        (scalePoint k (eye2 eye)) (scalePoint k (eye3 eye))
        (scalePoint k (eye4 eye)) (scalePoint k (eye5 eye)).

(** ** Rolling baseline *)

(** [calculateBaselineEAR], and the two inlined copies in part_000:
    [sorted.slice(0, 3).reduce((a, b) => a + b, 0) / 3]. *)
Definition calculateBaselineEAR (lastEAR : list R) : R :=
  sumR (firstn 3 (sortDesc lastEAR)) / 3.

(** ** Head movement (same text in both files) *)

(** The [for (let i = 1; i < length; i++)] loop over consecutive pairs,
    [acc] being the running [totalMovement]. *)
Fixpoint movementLoop (acc : R) (positions : list Point) : R :=
  match positions with
  | prev :: (curr :: _) as rest =>
      movementLoop (acc + (Rabs (px curr - px prev) + Rabs (py curr - py prev))) rest
  | _ => acc
  end.

Definition movementOf (positions : list Point) : R :=
  if (length positions <? 2)%nat then 0
  else movementLoop 0 positions / INR (length positions).

(** ** Liveness score and guidance message (same text in both files) *)

Definition expressionChangeOf (e : Expressions) : R :=
  Rmax (Rmax (happy e) (surprised e)) (neutral e).

Definition scoreOf (blinkCount : nat) (movement expressionChange : R) : R :=
  Rmin (INR blinkCount * 0.3 + movement * 2 + expressionChange * 0.3) 1.

Definition msgBlink (blinkCount : nat) : string :=
  ("Please blink naturally (" ++ showNat blinkCount ++ "/2 blinks)")%string.
Definition msgMove : string := "Please move your head slightly"%string.
Definition msgVerified : string := "Live face verified! Natural movements detected."%string.
Definition msgPosition : string := "Position your face in the box and blink naturally"%string.
Definition msgNoFace : string :=
  "No face detected. Please position your face in the center box."%string.

Definition guidance (score : R) (blinkCount : nat) (movement : R) : string :=
  if Rltb 0.7 score then
    if (blinkCount <? 2)%nat then msgBlink blinkCount
    else if Rltb movement 0.1 then msgMove
    else msgVerified
  else msgPosition.

(** ** [src/app/components/FaceVerification.tsx] *)

Module Component.

Record State : Type := mkState {
  lastPositionsRef : list Point;
  blinkCountRef : nat;
  lastEARRef : list R;
  livenessScore : R;
  message : string
}.

(** The values the hooks are created with. *)
Definition initialState : State :=
  mkState [] 0 [] 0 "Starting face verification..."%string.

Definition setMessage (s : State) (m : string) : State :=
  mkState (lastPositionsRef s) (blinkCountRef s) (lastEARRef s) (livenessScore s) m.

Definition setLivenessScore (s : State) (v : R) : State :=
  mkState (lastPositionsRef s) (blinkCountRef s) (lastEARRef s) v (message s).

Definition updateEARHistory (s : State) (currentEAR : R) : State :=
  mkState (lastPositionsRef s) (blinkCountRef s)
          (pushShift (lastEARRef s) currentEAR) (livenessScore s) (message s).

(** [detectBlink] reads the history that [updateEARHistory] has already
    extended; it does not push. *)
Definition detectBlink (s : State) (lm : Landmarks) : State * nat :=
  let leftEye := getLeftEye lm in
  let rightEye := getRightEye lm in
  let currentEAR := calculateEAR leftEye rightEye in
  if (3 <=? length (lastEARRef s))%nat then
    let prev := nth (length (lastEARRef s) - 2) (lastEARRef s) 0 in
    let threshold := calculateBaselineEAR (lastEARRef s) * 0.65 in
    if Rltb threshold prev && Rltb currentEAR threshold then
      let s' := mkState (lastPositionsRef s) (blinkCountRef s + 1) (lastEARRef s)
                        (livenessScore s) (message s) in
      (s', blinkCountRef s')
    else (s, blinkCountRef s)
  else (s, blinkCountRef s).

Definition detectMovement (s : State) (lm : Landmarks) : State * R :=
  let nose := noseTip lm in
  let currentPosition := mkPoint (px nose) (py nose) in
  let s' := mkState (pushShift (lastPositionsRef s) currentPosition) (blinkCountRef s)
                    (lastEARRef s) (livenessScore s) (message s) in
  (s', movementOf (lastPositionsRef s')).

Definition updateLivenessScore (s : State) (detection : Detection)
    (currentEAR baselineEAR : R) : State :=
  let exprs := expressions detection in
  let '(s1, blinkCount) := detectBlink s (landmarks detection) in
  let '(s2, movement) := detectMovement s1 (landmarks detection) in
  let expressionChange := expressionChangeOf exprs in
  let score := scoreOf blinkCount movement expressionChange in
  let s3 := setLivenessScore s2 score in
  setMessage s3 (guidance score blinkCount movement).

(** The body of the callback that [handleVideoPlay] registers with
    [setInterval], once the detector has answered with
    [resizedDetections]; only [resizedDetections[0]] is looked at.  The
    second component is the [isEyeClosed] flag handed to [drawEyes], [None]
    when no eye is drawn. *)
Definition handleVideoPlayTick (s : State) (resizedDetections : list Detection)
    : State * option bool :=
  match resizedDetections with
  | detection :: _ =>
      let faceLandmarks := landmarks detection in
      let leftEye := getLeftEye faceLandmarks in
      let rightEye := getRightEye faceLandmarks in
      let currentEAR := calculateEAR leftEye rightEye in
      let s1 := updateEARHistory s currentEAR in
      let baselineEAR := calculateBaselineEAR (lastEARRef s1) in
      let isEyeClosed := Rltb currentEAR (baselineEAR * 0.75) in
      (updateLivenessScore s1 detection currentEAR baselineEAR, Some isEyeClosed)
  | [] =>
      (setMessage s msgNoFace, None)
  end.

(** One callback after another, oldest frame first. *)
Definition runFrames (s : State) (frames : list (list Detection)) : State :=
  fold_left (fun st f => fst (handleVideoPlayTick st f)) frames s.

End Component.

(** ** [src/unnamed/part_000] *)

Module Part000.

Record DebugInfo : Type := mkDebugInfo {
  dbgEar : R;
  dbgState : string;
  dbgThreshold : R
}.

Record State : Type := mkState {
  lastPositionsRef : list Point;
  blinkCountRef : nat;
  lastEARRef : list R;
  livenessScore : R;
  message : string;
  debugInfo : DebugInfo
}.

Definition initialState : State :=
  mkState [] 0 [] 0 "Starting face verification..."%string
          (mkDebugInfo 0 "open"%string 0).

Definition setMessage (s : State) (m : string) : State :=
  mkState (lastPositionsRef s) (blinkCountRef s) (lastEARRef s) (livenessScore s) m
          (debugInfo s).

Definition setLivenessScore (s : State) (v : R) : State :=
  mkState (lastPositionsRef s) (blinkCountRef s) (lastEARRef s) v (message s)
          (debugInfo s).

Definition setDebugInfo (s : State) (d : DebugInfo) : State :=
  mkState (lastPositionsRef s) (blinkCountRef s) (lastEARRef s) (livenessScore s)
          (message s) d.

Definition pushEAR (s : State) (ear : R) : State :=
  mkState (lastPositionsRef s) (blinkCountRef s) (pushShift (lastEARRef s) ear)
          (livenessScore s) (message s) (debugInfo s).

(** Same body as the component's [getEAR]; the [catch] branch cannot be
    reached with six well-formed points. *)
Definition getEyeAspectRatio (eye : Eye) : R := getEAR eye.

(** [detectBlink] of part_000 pushes the sample itself ("Keep track of last
    10 EAR values") before it looks at the history.  The guard
    [if (!landmarks) return 0] and the [catch] branch are not reachable from
    the frame callback, which always passes the landmarks of a detection. *)
Definition detectBlink (s : State) (lm : Landmarks) : State * nat :=
  let leftEye := getLeftEye lm in
  let rightEye := getRightEye lm in
  let leftEAR := getEyeAspectRatio leftEye in
  let rightEAR := getEyeAspectRatio rightEye in
  let ear := (leftEAR + rightEAR) / 2 in
  let s1 := pushEAR s ear in
  let sortedEARs := sortDesc (lastEARRef s1) in
  let baselineEAR := sumR (firstn 3 sortedEARs) / 3 in
  let threshold := baselineEAR * 0.65 in
  if (3 <=? length (lastEARRef s1))%nat then
    let prev := nth (length (lastEARRef s1) - 2) (lastEARRef s1) 0 in
    let current := ear in
    let s2 := setDebugInfo s1
                (mkDebugInfo current
                   (if Rltb current threshold then "closed" else "open")%string
                   threshold) in
    if Rltb threshold prev && Rltb current threshold then
      let s3 := mkState (lastPositionsRef s2) (blinkCountRef s2 + 1) (lastEARRef s2)
                        (livenessScore s2) (message s2) (debugInfo s2) in
      (s3, blinkCountRef s3)
    else (s2, blinkCountRef s2)
  else (s1, blinkCountRef s1).

Definition detectMovement (s : State) (lm : Landmarks) : State * R :=
  let nose := noseTip lm in
  let currentPosition := mkPoint (px nose) (py nose) in
  let s' := mkState (pushShift (lastPositionsRef s) currentPosition) (blinkCountRef s)
                    (lastEARRef s) (livenessScore s) (message s) (debugInfo s) in
  (s', movementOf (lastPositionsRef s')).

Definition detectEyeState (currentEAR baselineEAR : R) : bool :=
  let threshold := baselineEAR * 0.75 in
  Rltb currentEAR threshold.

(** The body of the callback that [handleVideoPlay] registers with
    [setInterval], once the detector has answered. *)
Definition handleVideoPlayTick (s : State) (resizedDetections : list Detection)
    : State * option bool :=
  match resizedDetections with
  | detection :: _ =>
      let faceLandmarks := landmarks detection in
      let leftEye := getLeftEye faceLandmarks in
      let rightEye := getRightEye faceLandmarks in
      let leftEAR := getEyeAspectRatio leftEye in
      let rightEAR := getEyeAspectRatio rightEye in
      let currentEAR := (leftEAR + rightEAR) / 2 in
      let s1 := pushEAR s currentEAR in
      let sortedEARs := sortDesc (lastEARRef s1) in
      let baselineEAR := sumR (firstn 3 sortedEARs) / 3 in
      let isEyeClosed := detectEyeState currentEAR baselineEAR in
      let exprs := expressions detection in
      let '(s2, blinkCount) := detectBlink s1 faceLandmarks in
      let '(s3, movement) := detectMovement s2 faceLandmarks in
      let expressionChange := expressionChangeOf exprs in
      let score := scoreOf blinkCount movement expressionChange in
      let s4 := setLivenessScore s3 score in
      (setMessage s4 (guidance score blinkCount movement), Some isEyeClosed)
  | [] =>
      (setMessage s msgNoFace, None)
  end.

Definition runFrames (s : State) (frames : list (list Detection)) : State :=
  fold_left (fun st f => fst (handleVideoPlayTick st f)) frames s.

End Part000.

(** ** The specification's wording, kept apart for comparison *)

(** "take first 3 (or fewer if history shorter -- if fewer than 3 samples
    exist, average over whatever is present, and treat as 0 if empty),
    return their mean". *)
Definition baselineSpec (history : list R) : R :=
  match firstn 3 (sortDesc history) with
  | [] => 0
  | top => sumR top / INR (length top)
  end.

(** "sum over consecutive pairs (i-1, i) of |dx| + |dy|". *)
Fixpoint manhattanSum (positions : list Point) : R :=
  match positions with
  | prev :: (curr :: _) as rest =>
      (Rabs (px curr - px prev) + Rabs (py curr - py prev)) + manhattanSum rest
  | _ => 0
  end.

(** "threshold = baseline() * 0.65". *)
Definition blinkThreshold (history : list R) : R :=
  calculateBaselineEAR history * 0.65.

(** "If history has >= 3 samples: let prev = the second-to-last sample in
    history.  If prev > threshold AND currentEAR < threshold" -- a
    falling-edge crossing. *)
Definition fallingEdge (history : list R) (currentEAR : R) : bool :=
  (3 <=? length history)%nat
  && (Rltb (blinkThreshold history) (nth (length history - 2) history 0)
      && Rltb currentEAR (blinkThreshold history)).

(** The ratio the frame callback computes for a detection, its
    [currentEAR]. *)
Definition detectionEAR (d : Detection) : R :=
  calculateEAR (getLeftEye (landmarks d)) (getRightEye (landmarks d)).

(** Frames in which exactly the given faces are detected, one face a frame. *)
Definition faceFrames (ds : list Detection) : list (list Detection) :=
  map (fun d => [d]) ds.

(** The EAR history and blink count after feeding the samples [ears], one
    per frame, to a detector that pushes each sample once and then looks
    for a falling edge. *)
Fixpoint blinkTrace (history : list R) (count : nat) (ears : list R) : list R * nat :=
  match ears with
  | [] => (history, count)
  | e :: rest =>
      let history' := pushShift history e in
      blinkTrace history' (count + (if fallingEdge history' e then 1 else 0)) rest
  end.

(** A run of closed-eye frames: every sample, once pushed, lies below the
    blink threshold of its own frame. *)
Fixpoint closedRun (history : list R) (ears : list R) : Prop :=
  match ears with
  | [] => True
  | e :: rest =>
      let history' := pushShift history e in
      (3 <= length history')%nat /\ e < blinkThreshold history' /\ closedRun history' rest
  end.

(** "no double counting during a sustained closure": over a run of
    closed-eye frames the count grows by one at most. *)
Definition noDoubleCounting : Prop :=
  forall (s : Component.State) (ds : list Detection),
    closedRun (Component.lastEARRef s) (map detectionEAR ds) ->
    (Component.blinkCountRef (Component.runFrames s (faceFrames ds))
     <= Component.blinkCountRef s + 1)%nat.

(** Descending order: every element is at least every later one. *)
Definition descending : list R -> Prop := StronglySorted (fun a b => b <= a).

(** A run of closed-eye frames over which the blink threshold does not
    fall from one frame to the next. *)
Fixpoint steadyClosedRun (history : list R) (ears : list R) : Prop :=
  match ears with
  | [] => True
  | e :: rest =>
      let history' := pushShift history e in
      e < blinkThreshold history' /\
      match rest with
      | [] => True
      | e2 :: _ => blinkThreshold history' <= blinkThreshold (pushShift history' e2)
      end /\
      steadyClosedRun history' rest
  end.

(** ** Sample inputs used by the examples below *)

(** An eye whose two horizontal corners are the same point. *)
Definition degenerateEye : Eye :=
  mkEye (mkPoint 5 7) (mkPoint 6 9) (mkPoint 8 9)
        (mkPoint 5 7) (mkPoint 8 4) (mkPoint 6 4).

(** An eye three units wide and [2 * a] units high: its ratio is [a]. *)
Definition eyeOf (a : R) : Eye :=
  mkEye (mkPoint 0 0) (mkPoint 1 a) (mkPoint 2 a)
        (mkPoint 3 0) (mkPoint 2 (- a)) (mkPoint 1 (- a)).

(** A detection whose two eyes have ratio [a], nose at the origin and a
    neutral expression. *)
Definition faceOf (a : R) : Detection :=
  mkDetection (mkLandmarks (eyeOf a) (eyeOf a) (mkPoint 0 0)) (mkExpressions 0 0 1).

(** Two open-eye frames, then the eyes shut and stay shut for ten frames
    (one second at the 100 ms cadence), with the ratio hovering around 0.15. *)
Definition openEars : list R := [0.45; 0.45].
Definition shutEars : list R :=
  [0.10; 0.15; 0.15; 0.15; 0.15; 0.15; 0.15; 0.15; 0.15; 0.05].

(** The component after two frames with ratios 0.30 and 0.32. *)
Definition afterTwoOpenFrames : Component.State :=
  Component.mkState [mkPoint 0 0; mkPoint 0 0] 0 [0.30; 0.32] 0.3 msgPosition.

(** ** Transformations of the inputs, used to state invariances *)

(** Every point of the eye moved by the same offset. *)
Definition translatePoint (dx dy : R) (p : Point) : Point :=
  mkPoint (px p + dx) (py p + dy).

Definition translateEye (dx dy : R) (eye : Eye) : Eye :=
  mkEye (translatePoint dx dy (eye0 eye)) (translatePoint dx dy (eye1 eye))
        (translatePoint dx dy (eye2 eye)) (translatePoint dx dy (eye3 eye))
        (translatePoint dx dy (eye4 eye)) (translatePoint dx dy (eye5 eye)).

(** The same six points numbered from the other corner: [eye[0]] and
    [eye[3]] change places, and so do [eye[1]], [eye[2]] and [eye[5]],
    [eye[4]]. *)
Definition renumberFromOtherCorner (eye : Eye) : Eye :=
  mkEye (eye3 eye) (eye2 eye) (eye1 eye) (eye0 eye) (eye5 eye) (eye4 eye).

(** Upper and lower lid points exchanged. *)
Definition swapLids (eye : Eye) : Eye :=
  mkEye (eye0 eye) (eye5 eye) (eye4 eye) (eye3 eye) (eye2 eye) (eye1 eye).

(** The last [n] elements of a list. *)
Definition lastN {A : Type} (n : nat) (l : list A) : list A :=
  skipn (length l - n) l.

(** The frames of a run in which a face was found. *)
Definition faceFound (frame : list Detection) : bool :=
  match frame with
  | [] => false
  | _ :: _ => true
  end.

(** Each sample written twice in a row. *)
Definition doubled (ears : list R) : list R :=
  flat_map (fun e => [e; e]) ears.

(** The detections the frame callback looks at over a run: the first
    detection of every frame that has one. *)
Definition firstFaces (frames : list (list Detection)) : list Detection :=
  flat_map (fun frame => match frame with
                         | d :: _ => [d]
                         | [] => []
                         end) frames.

(** The nose position the callback pushes for a detection. *)
Definition detectionNose (d : Detection) : Point := noseTip (landmarks d).

(** Two states of the component that differ at most in their message. *)
Definition sameSignals (s1 s2 : Component.State) : Prop :=
  Component.lastEARRef s1 = Component.lastEARRef s2 /\
  Component.lastPositionsRef s1 = Component.lastPositionsRef s2 /\
  Component.blinkCountRef s1 = Component.blinkCountRef s2 /\
  Component.livenessScore s1 = Component.livenessScore s2.

(** A state of the component with two blinks already counted and one nose
    position in the window, and a detection whose nose has moved. *)
Definition twoBlinksCounted : Component.State :=
  Component.mkState [mkPoint 0 0] 2 [0.3; 0.3; 0.3] 0.6 msgPosition.

Definition movedFace : Detection :=
  mkDetection (mkLandmarks (eyeOf 0.3) (eyeOf 0.3) (mkPoint 1 1)) (mkExpressions 0 0 1).

(** ** The eye aspect ratio under rounding *)

(** [euclideanDistance] and [getEAR] with the result of every arithmetic
    operation passed through a rounding function [rnd], the way a
    floating-point unit delivers it; the constants 2.0 and 1.5 are exact. *)
Definition euclideanDistanceRnd (rnd : R -> R) (pt1 pt2 : Point) : R :=
  let dx := rnd (px pt2 - px pt1) in
  let dy := rnd (py pt2 - py pt1) in
  rnd (sqrt (rnd (rnd (dx * dx) + rnd (dy * dy)))).

Definition getEARRnd (rnd : R -> R) (eye : Eye) : R :=
  let v1 := euclideanDistanceRnd rnd (eye1 eye) (eye5 eye) in
  let v2 := euclideanDistanceRnd rnd (eye2 eye) (eye4 eye) in
  let h := euclideanDistanceRnd rnd (eye0 eye) (eye3 eye) in
  if Rlt_dec 0 h then rnd (rnd (rnd (v1 + v2) / rnd (2 * h)) * 1.5) else 0.

(** The same two functions on binary64 numbers, which is what a JavaScript
    number is.  [Math.pow(d, 2)] is the correctly rounded [d * d]. *)
Module DoubleModel.

Import PrimFloat.
Local Open Scope float_scope.

Record Point : Type := mkPoint { px : float; py : float }.

Record Eye : Type := mkEye {
  eye0 : Point; eye1 : Point; eye2 : Point;
  eye3 : Point; eye4 : Point; eye5 : Point
}.

Definition euclideanDistance (pt1 pt2 : Point) : float :=
  sqrt ((px pt2 - px pt1) * (px pt2 - px pt1)
        + (py pt2 - py pt1) * (py pt2 - py pt1)).

Definition getEAR (eye : Eye) : float :=
  let v1 := euclideanDistance (eye1 eye) (eye5 eye) in
  let v2 := euclideanDistance (eye2 eye) (eye4 eye) in
  let h := euclideanDistance (eye0 eye) (eye3 eye) in
  if 0 <? h then ((v1 + v2) / (2 * h)) * 1.5 else 0.

Definition scalePoint (k : float) (p : Point) : Point :=
  mkPoint (k * px p) (k * py p).

Definition scaleEye (k : float) (eye : Eye) : Eye :=
  mkEye (scalePoint k (eye0 eye)) (scalePoint k (eye1 eye))
        (scalePoint k (eye2 eye)) (scalePoint k (eye3 eye))
        (scalePoint k (eye4 eye)) (scalePoint k (eye5 eye)).





End DoubleModel.

(** * Properties *)

(** ** Geometry *)

Lemma euclideanDistance_nonneg (a b : Point) : 0 <= euclideanDistance a b.
Proof. unfold euclideanDistance. apply sqrt_pos. Qed.

Lemma euclideanDistance_coincide (a b : Point) :
  px a = px b -> py a = py b -> euclideanDistance a b = 0.
Proof.
  intros Hx Hy. unfold euclideanDistance. rewrite Hx, Hy.
  replace ((px b - px b) ^ 2 + (py b - py b) ^ 2) with 0 by ring.
  apply sqrt_0.
Qed.


(** The guard [h > 0] keeps every division of [getEAR] away from zero. *)
Lemma getEARChecked_total (eye : Eye) : getEARChecked eye = Some (getEAR eye).
Proof.
  unfold getEARChecked, getEAR, checkedDiv.
  destruct (Rlt_dec 0 (euclideanDistance (eye0 eye) (eye3 eye))) as [Hh | Hh];
    [ | reflexivity ].
  destruct (Req_dec_T (2 * euclideanDistance (eye0 eye) (eye3 eye)) 0) as [H0 | H0].
  - lra.
  - reflexivity.
Qed.

(** C6: when the two horizontal corners [eye[0]] and [eye[3]] coincide, the
    eye aspect ratio is exactly 0, and the computation with checked divisions
    yields that 0 as well, so no division by zero takes place. *)
Theorem getEAR_degenerate_zero (eye : Eye) :
  px (eye0 eye) = px (eye3 eye) ->
  py (eye0 eye) = py (eye3 eye) ->
  euclideanDistance (eye0 eye) (eye3 eye) = 0 /\
  getEAR eye = 0 /\
  getEARChecked eye = Some 0.
Proof.
  intros Hx Hy.
  pose proof (euclideanDistance_coincide _ _ Hx Hy) as Hh.
  assert (HE : getEAR eye = 0).
  { unfold getEAR. rewrite Hh. destruct (Rlt_dec 0 0) as [H | H]; [lra | reflexivity]. }
  repeat split; [exact Hh | exact HE | ].
  rewrite getEARChecked_total, HE. reflexivity.
Qed.

Lemma getEAR_degenerate_zero_witness :
  euclideanDistance (eye0 degenerateEye) (eye3 degenerateEye) = 0 /\
  getEAR degenerateEye = 0 /\
  getEARChecked degenerateEye = Some 0.
Proof. apply (getEAR_degenerate_zero degenerateEye); reflexivity. Defined.


Lemma eyeOf_width (a : R) : euclideanDistance (eye0 (eyeOf a)) (eye3 (eyeOf a)) = 3.
Proof.
  unfold euclideanDistance, eyeOf; cbn [px py eye0 eye3].
  replace ((3 - 0) ^ 2 + (0 - 0) ^ 2) with (Rsqr 3) by (unfold Rsqr; ring).
  apply sqrt_Rsqr. lra.
Qed.

Lemma eyeOf_height (a x : R) :
  0 <= a -> euclideanDistance (mkPoint x a) (mkPoint x (- a)) = 2 * a.
Proof.
  intros Ha. unfold euclideanDistance; cbn [px py].
  replace ((x - x) ^ 2 + (- a - a) ^ 2) with (Rsqr (2 * a)) by (unfold Rsqr; ring).
  apply sqrt_Rsqr. lra.
Qed.

Lemma getEAR_eyeOf (a : R) : 0 <= a -> getEAR (eyeOf a) = a.
Proof.
  intros Ha. unfold getEAR. rewrite eyeOf_width. cbn [eyeOf eye0 eye1 eye2 eye3 eye4 eye5].
  rewrite !eyeOf_height by exact Ha.
  destruct (Rlt_dec 0 3) as [H | H]; lra.
Qed.

(** ** Scaling and rounding *)

Lemma getEARRnd_exact (eye : Eye) : getEARRnd (fun x => x) eye = getEAR eye.
Proof.
  unfold getEARRnd, getEAR, euclideanDistanceRnd, euclideanDistance.
  cbv zeta.
  replace ((px (eye5 eye) - px (eye1 eye)) * (px (eye5 eye) - px (eye1 eye)))
    with ((px (eye5 eye) - px (eye1 eye)) ^ 2) by ring.
  replace ((py (eye5 eye) - py (eye1 eye)) * (py (eye5 eye) - py (eye1 eye)))
    with ((py (eye5 eye) - py (eye1 eye)) ^ 2) by ring.
  replace ((px (eye4 eye) - px (eye2 eye)) * (px (eye4 eye) - px (eye2 eye)))
    with ((px (eye4 eye) - px (eye2 eye)) ^ 2) by ring.
  replace ((py (eye4 eye) - py (eye2 eye)) * (py (eye4 eye) - py (eye2 eye)))
    with ((py (eye4 eye) - py (eye2 eye)) ^ 2) by ring.
  replace ((px (eye3 eye) - px (eye0 eye)) * (px (eye3 eye) - px (eye0 eye)))
    with ((px (eye3 eye) - px (eye0 eye)) ^ 2) by ring.
  replace ((py (eye3 eye) - py (eye0 eye)) * (py (eye3 eye) - py (eye0 eye)))
    with ((py (eye3 eye) - py (eye0 eye)) ^ 2) by ring.
  reflexivity.
Qed.

Section DoublingCommutes.

(** A rounding that commutes with doubling, as rounding to a binary
    format does away from overflow and underflow. *)
Variable rnd : R -> R.
Hypothesis rnd_double : forall x, rnd (2 * x) = 2 * rnd x.







End DoublingCommutes.




(** ** Sorting and the rolling baseline *)

(** Evaluation of the list functions on concrete reals, one comparison at
    a time. *)
Ltac rstep :=
  match goal with
  | |- context [Rle_dec ?a ?b] =>
      let H := fresh "H" in
      destruct (Rle_dec a b) as [H | H];
      [ try (exfalso; clear - H; lra) | try (exfalso; clear - H; lra) ]; clear H
  | |- context [Rlt_dec ?a ?b] =>
      let H := fresh "H" in
      destruct (Rlt_dec a b) as [H | H];
      [ try (exfalso; clear - H; lra) | try (exfalso; clear - H; lra) ]; clear H
  end.

Ltac reval :=
  repeat (cbn [sortDesc insertDesc firstn fold_left app length tl nth
               Nat.ltb Nat.leb Nat.sub andb fst snd Nat.add];
          try rstep).

Lemma insertDesc_perm (x : R) (l : list R) : Permutation (insertDesc x l) (x :: l).
Proof.
  induction l as [ | y t IH]; simpl.
  - apply Permutation_refl.
  - destruct (Rle_dec y x).
    + apply Permutation_refl.
    + eapply Permutation_trans; [ apply perm_skip, IH | apply perm_swap ].
Qed.

Lemma sortDesc_perm (l : list R) : Permutation (sortDesc l) l.
Proof.
  induction l as [ | x t IH]; simpl.
  - apply perm_nil.
  - eapply Permutation_trans; [ apply insertDesc_perm | apply perm_skip, IH ].
Qed.

Lemma sortDesc_length (l : list R) : length (sortDesc l) = length l.
Proof. apply Permutation_length, sortDesc_perm. Qed.

Lemma insertDesc_descending (x : R) (l : list R) :
  descending l -> descending (insertDesc x l).
Proof.
  unfold descending. induction l as [ | y t IH]; intros Hs; simpl.
  - constructor; constructor.
  - inversion Hs as [ | ? ? Ht Hy]; subst.
    destruct (Rle_dec y x) as [Hle | Hgt].
    + constructor; [ exact Hs | ].
      constructor; [ exact Hle | ].
      eapply Forall_impl; [ | exact Hy ]. simpl. intros z Hz. lra.
    + constructor; [ apply IH, Ht | ].
      eapply Permutation_Forall; [ apply Permutation_sym, insertDesc_perm | ].
      constructor; [ lra | exact Hy ].
Qed.

Lemma sortDesc_descending (l : list R) : descending (sortDesc l).
Proof.
  induction l as [ | x t IH]; simpl.
  - constructor.
  - apply insertDesc_descending, IH.
Qed.

Lemma sumR_acc (l : list R) (a : R) : fold_left Rplus l a = a + sumR l.
Proof.
  unfold sumR. revert a. induction l as [ | x t IH]; intros a; simpl.
  - lra.
  - rewrite (IH (a + x)), (IH (0 + x)). lra.
Qed.

Lemma sumR_cons (x : R) (l : list R) : sumR (x :: l) = x + sumR l.
Proof. unfold sumR at 1. simpl. rewrite sumR_acc. lra. Qed.

Lemma sumR_nil : sumR [] = 0.
Proof. reflexivity. Qed.

(** With three samples or more the baseline is the mean of the three
    largest values of the history. *)
Lemma calculateBaselineEAR_top3 (history : list R) :
  (3 <= length history)%nat ->
  exists a b c rest,
    Permutation history (a :: b :: c :: rest) /\
    c <= b /\ b <= a /\ Forall (fun z => z <= c) rest /\
    calculateBaselineEAR history = (a + b + c) / 3.
Proof.
  intros Hlen. unfold calculateBaselineEAR.
  pose proof (sortDesc_perm history) as Hp.
  pose proof (sortDesc_descending history) as Hs.
  pose proof (sortDesc_length history) as Hl.
  destruct (sortDesc history) as [ | a [ | b [ | c rest]]]; simpl in Hl; try lia.
  exists a, b, c, rest.
  inversion Hs as [ | ? ? Hs1 Ha]; subst.
  inversion Hs1 as [ | ? ? Hs2 Hb]; subst.
  inversion Hs2 as [ | ? ? Hs3 Hc]; subst.
  inversion Ha as [ | ? ? Hab Ha']; subst.
  inversion Hb as [ | ? ? Hbc Hb']; subst.
  repeat split.
  - apply Permutation_sym, Hp.
  - exact Hbc.
  - exact Hab.
  - exact Hc.
  - cbn [firstn]. rewrite !sumR_cons, sumR_nil. lra.
Qed.

Lemma calculateBaselineEAR_empty : calculateBaselineEAR [] = 0.
Proof. unfold calculateBaselineEAR, sumR. simpl. lra. Qed.

Lemma calculateBaselineEAR_one (x : R) : calculateBaselineEAR [x] = x / 3.
Proof. unfold calculateBaselineEAR, sumR. simpl. lra. Qed.

Lemma calculateBaselineEAR_two (x y : R) : calculateBaselineEAR [x; y] = (x + y) / 3.
Proof.
  unfold calculateBaselineEAR, sumR. simpl.
  destruct (Rle_dec y x); simpl; lra.
Qed.

(** Where code and specification agree: an empty history, and three samples
    or more. *)
Lemma calculateBaselineEAR_agrees (history : list R) :
  history = [] \/ (3 <= length history)%nat ->
  calculateBaselineEAR history = baselineSpec history.
Proof.
  intros [-> | Hlen].
  - rewrite calculateBaselineEAR_empty. reflexivity.
  - unfold calculateBaselineEAR, baselineSpec.
    pose proof (sortDesc_length history) as Hl.
    destruct (sortDesc history) as [ | a [ | b [ | c rest]]]; simpl in Hl; try lia.
    cbn [firstn length INR]. f_equal. lra.
Qed.

(** C1: with a single sample 0.3 in the history, [calculateBaselineEAR]
    divides the sum of what [slice(0, 3)] returned by the constant 3 and
    yields 0.1, while the average over the samples present, which the
    comment "average of highest values" and the specification describe,
    is 0.3; with two samples 0.3 and 0.5 it yields 4/15 instead of 0.4. *)
Theorem calculateBaselineEAR_short_history :
  calculateBaselineEAR [0.3] = 0.1 /\ baselineSpec [0.3] = 0.3 /\
  calculateBaselineEAR [0.3; 0.5] = 4 / 15 /\ baselineSpec [0.3; 0.5] = 0.4.
Proof.
  repeat split.
  - rewrite calculateBaselineEAR_one. lra.
  - unfold baselineSpec, sumR. simpl. lra.
  - rewrite calculateBaselineEAR_two. lra.
  - unfold baselineSpec, sumR. reval. cbn [INR]. lra.
Qed.

(** ** Head movement *)

Lemma movementLoop_manhattanSum (positions : list Point) (acc : R) :
  movementLoop acc positions = acc + manhattanSum positions.
Proof.
  revert acc. induction positions as [ | prev rest IH]; intros acc.
  - simpl. lra.
  - destruct rest as [ | curr rest'].
    + simpl. lra.
    + change (movementLoop acc (prev :: curr :: rest'))
        with (movementLoop
                (acc + (Rabs (px curr - px prev) + Rabs (py curr - py prev)))
                (curr :: rest')).
      change (manhattanSum (prev :: curr :: rest'))
        with ((Rabs (px curr - px prev) + Rabs (py curr - py prev))
              + manhattanSum (curr :: rest')).
      rewrite IH. lra.
Qed.

Lemma movementOf_manhattanSum (positions : list Point) :
  movementOf positions =
  if (length positions <? 2)%nat then 0
  else manhattanSum positions / INR (length positions).
Proof.
  unfold movementOf. destruct (length positions <? 2)%nat; [ reflexivity | ].
  rewrite movementLoop_manhattanSum. f_equal. lra.
Qed.

Lemma manhattanSum_repeat (p : Point) (n : nat) : manhattanSum (repeat p n) = 0.
Proof.
  induction n as [ | n IH].
  - reflexivity.
  - destruct n as [ | n].
    + reflexivity.
    + change (manhattanSum (repeat p (S (S n))))
        with ((Rabs (px p - px p) + Rabs (py p - py p)) + manhattanSum (repeat p (S n))).
      rewrite IH. replace (px p - px p) with 0 by ring.
      replace (py p - py p) with 0 by ring. rewrite Rabs_R0. lra.
Qed.

Lemma movementOf_repeat (p : Point) (n : nat) : movementOf (repeat p n) = 0.
Proof.
  rewrite movementOf_manhattanSum, manhattanSum_repeat.
  destruct (length (repeat p n) <? 2)%nat; [ reflexivity | ].
  unfold Rdiv. apply Rmult_0_l.
Qed.

Lemma pushShift_repeat {A : Type} (p : A) (n : nat) :
  exists m, pushShift (repeat p n) p = repeat p m.
Proof.
  unfold pushShift.
  replace (repeat p n ++ [p]) with (repeat p (S n))
    by (change [p] with (repeat p 1); rewrite <- repeat_app; f_equal; lia).
  destruct (10 <? length (repeat p (S n)))%nat.
  - exists n. reflexivity.
  - exists (S n). reflexivity.
Qed.

Lemma point_eta (p : Point) : mkPoint (px p) (py p) = p.
Proof. destruct p; reflexivity. Qed.

(** C8: after pushing the nose position, [detectMovement] returns 0 when the
    window holds fewer than 2 positions, and otherwise the sum over
    consecutive pairs of |dx| + |dy| divided by the window length, in both
    files; and when every position of the window, the new one included, is
    the same point, the result is 0. *)
Theorem detectMovement_manhattan_mean :
  (forall (s : Component.State) (lm : Landmarks),
     let window := pushShift (Component.lastPositionsRef s) (noseTip lm) in
     Component.lastPositionsRef (fst (Component.detectMovement s lm)) = window /\
     snd (Component.detectMovement s lm) =
       if (length window <? 2)%nat then 0
       else manhattanSum window / INR (length window)) /\
  (forall (s : Part000.State) (lm : Landmarks),
     let window := pushShift (Part000.lastPositionsRef s) (noseTip lm) in
     Part000.lastPositionsRef (fst (Part000.detectMovement s lm)) = window /\
     snd (Part000.detectMovement s lm) =
       if (length window <? 2)%nat then 0
       else manhattanSum window / INR (length window)) /\
  (forall (lm : Landmarks) (n blinks : nat) (ears : list R) (v : R) (m : string),
     snd (Component.detectMovement
            (Component.mkState (repeat (noseTip lm) n) blinks ears v m) lm) = 0) /\
  (forall (lm : Landmarks) (n blinks : nat) (ears : list R) (v : R) (m : string)
          (d : Part000.DebugInfo),
     snd (Part000.detectMovement
            (Part000.mkState (repeat (noseTip lm) n) blinks ears v m d) lm) = 0).
Proof.
  split; [ | split; [ | split ] ].
  - intros s lm window. unfold Component.detectMovement, window; cbn [fst snd].
    cbn [Component.lastPositionsRef]. rewrite point_eta.
    split; [ reflexivity | apply movementOf_manhattanSum ].
  - intros s lm window. unfold Part000.detectMovement, window; cbn [fst snd].
    cbn [Part000.lastPositionsRef]. rewrite point_eta.
    split; [ reflexivity | apply movementOf_manhattanSum ].
  - intros lm n blinks ears v m. unfold Component.detectMovement; cbn [fst snd].
    cbn [Component.lastPositionsRef]. rewrite point_eta.
    destruct (pushShift_repeat (noseTip lm) n) as [k ->]. apply movementOf_repeat.
  - intros lm n blinks ears v m d. unfold Part000.detectMovement; cbn [fst snd].
    cbn [Part000.lastPositionsRef]. rewrite point_eta.
    destruct (pushShift_repeat (noseTip lm) n) as [k ->]. apply movementOf_repeat.
Qed.

(** ** Liveness score and guidance *)

Lemma Rltb_true (a b : R) : a < b -> Rltb a b = true.
Proof. intros H. unfold Rltb. destruct (Rlt_dec a b); [ reflexivity | contradiction ]. Qed.

Lemma Rltb_false (a b : R) : b <= a -> Rltb a b = false.
Proof. intros H. unfold Rltb. destruct (Rlt_dec a b); [ lra | reflexivity ]. Qed.

Lemma Rltb_spec (a b : R) : Rltb a b = true <-> a < b.
Proof.
  unfold Rltb. destruct (Rlt_dec a b); split; intros H; try reflexivity;
    try assumption; try discriminate; contradiction.
Qed.

(** What [updateLivenessScore] publishes, in terms of the values it gets
    from [detectBlink] and [detectMovement]. *)
Lemma updateLivenessScore_publishes (s : Component.State) (d : Detection) (e b : R) :
  let blinkCount := snd (Component.detectBlink s (landmarks d)) in
  let s1 := fst (Component.detectBlink s (landmarks d)) in
  let movement := snd (Component.detectMovement s1 (landmarks d)) in
  let score := scoreOf blinkCount movement (expressionChangeOf (expressions d)) in
  Component.livenessScore (Component.updateLivenessScore s d e b) = score /\
  Component.message (Component.updateLivenessScore s d e b) =
    guidance score blinkCount movement.
Proof.
  unfold Component.updateLivenessScore.
  destruct (Component.detectBlink s (landmarks d)) as [s1 blinkCount].
  cbn [fst snd]. split; reflexivity.
Qed.

(** The same for the frame callback of part_000, where the computation is
    inlined. *)
Lemma Part000_tick_publishes (s : Part000.State) (d : Detection) (rest : list Detection) :
  let currentEAR :=
    calculateEAR (getLeftEye (landmarks d)) (getRightEye (landmarks d)) in
  let r := Part000.detectBlink (Part000.pushEAR s currentEAR) (landmarks d) in
  let blinkCount := snd r in
  let movement := snd (Part000.detectMovement (fst r) (landmarks d)) in
  let score := scoreOf blinkCount movement (expressionChangeOf (expressions d)) in
  Part000.livenessScore (fst (Part000.handleVideoPlayTick s (d :: rest))) = score /\
  Part000.message (fst (Part000.handleVideoPlayTick s (d :: rest)))
  = guidance score blinkCount movement.
Proof.
  cbv zeta. unfold Part000.handleVideoPlayTick.
  change ((Part000.getEyeAspectRatio (getLeftEye (landmarks d))
           + Part000.getEyeAspectRatio (getRightEye (landmarks d))) / 2)
    with (calculateEAR (getLeftEye (landmarks d)) (getRightEye (landmarks d))).
  destruct (Part000.detectBlink _ (landmarks d)) as [s2 blinkCount].
  cbn [fst snd]. split; reflexivity.
Qed.

(** C4: the score that [updateLivenessScore] stores is
    [min(blinkCount*0.3 + movement*2 + expressionChange*0.3, 1)] with
    [expressionChange = max(happy, surprised, neutral)]; as a function of
    its three inputs it does not decrease when any of them grows, never
    exceeds 1, and is exactly 1 as soon as the weighted sum reaches 1. *)
Theorem scoreOf_monotone_capped
    (s : Component.State) (d : Detection) (e b : R)
    (b1 b2 : nat) (m1 m2 x1 x2 : R) :
  (b1 <= b2)%nat -> m1 <= m2 -> x1 <= x2 ->
  (let blinkCount := snd (Component.detectBlink s (landmarks d)) in
   let movement :=
     snd (Component.detectMovement (fst (Component.detectBlink s (landmarks d)))
            (landmarks d)) in
   let expressionChange :=
     Rmax (Rmax (happy (expressions d)) (surprised (expressions d)))
          (neutral (expressions d)) in
   Component.livenessScore (Component.updateLivenessScore s d e b)
   = Rmin (INR blinkCount * 0.3 + movement * 2 + expressionChange * 0.3) 1) /\
  scoreOf b1 m1 x1 = Rmin (INR b1 * 0.3 + m1 * 2 + x1 * 0.3) 1 /\
  scoreOf b1 m1 x1 <= scoreOf b2 m2 x2 /\
  scoreOf b2 m2 x2 <= 1 /\
  (1 <= INR b2 * 0.3 + m2 * 2 + x2 * 0.3 -> scoreOf b2 m2 x2 = 1).
Proof.
  intros Hb Hm Hx. apply le_INR in Hb.
  split; [ apply updateLivenessScore_publishes | ].
  split; [ reflexivity | ].
  unfold scoreOf. split; [ | split ].
  - apply Rle_min_compat_r. lra.
  - apply Rmin_r.
  - intros Hsum. apply Rmin_right. exact Hsum.
Qed.

Lemma scoreOf_monotone_capped_witness :
  scoreOf 1 0.1 0.2 <= scoreOf 2 0.15 0.5 /\ scoreOf 2 0.15 0.5 = 1.
Proof.
  destruct (scoreOf_monotone_capped Component.initialState (faceOf 0.3) 0.3 0.1
              1 2 0.1 0.15 0.2 0.5)
    as (_ & _ & Hmono & _ & Hcap); [ lia | lra | lra | ].
  split; [ exact Hmono | apply Hcap; simpl; lra ].
Defined.

(** C5: the message is chosen by first match: above 0.7 with fewer than two
    blinks it asks for blinks and reports [blinkCount] out of 2; else above
    0.7 with movement under 0.1 it asks for head movement; else above 0.7 it
    reports a verified live face; at 0.7 or below it asks to position the
    face and blink.  [updateLivenessScore] publishes the message chosen
    this way for the score, blink count and movement of the frame.  With 2 blinks, movement 0.15 and expression change 0.5
    the score is 1 and the message is the verified one. *)
Theorem guidance_priority
    (s : Component.State) (d : Detection) (e b : R)
    (score movement : R) (blinkCount : nat) :
  (let n := snd (Component.detectBlink s (landmarks d)) in
   let m :=
     snd (Component.detectMovement (fst (Component.detectBlink s (landmarks d)))
            (landmarks d)) in
   Component.message (Component.updateLivenessScore s d e b)
   = guidance (scoreOf n m (expressionChangeOf (expressions d))) n m) /\
  (0.7 < score -> (blinkCount < 2)%nat ->
     guidance score blinkCount movement
     = ("Please blink naturally (" ++ showNat blinkCount ++ "/2 blinks)")%string) /\
  (0.7 < score -> (2 <= blinkCount)%nat -> movement < 0.1 ->
     guidance score blinkCount movement = "Please move your head slightly"%string) /\
  (0.7 < score -> (2 <= blinkCount)%nat -> 0.1 <= movement ->
     guidance score blinkCount movement
     = "Live face verified! Natural movements detected."%string) /\
  (score <= 0.7 ->
     guidance score blinkCount movement
     = "Position your face in the box and blink naturally"%string) /\
  scoreOf 2 0.15 0.5 = 1 /\
  guidance (scoreOf 2 0.15 0.5) 2 0.15
  = "Live face verified! Natural movements detected."%string.
Proof.
  split; [ apply updateLivenessScore_publishes | ].
  unfold guidance.
  split; [ | split; [ | split; [ | split; [ | split ] ] ] ].
  - intros Hs Hb. rewrite (Rltb_true _ _ Hs).
    apply Nat.ltb_lt in Hb. rewrite Hb. reflexivity.
  - intros Hs Hb Hm. rewrite (Rltb_true _ _ Hs).
    apply Nat.ltb_ge in Hb. rewrite Hb. rewrite (Rltb_true _ _ Hm). reflexivity.
  - intros Hs Hb Hm. rewrite (Rltb_true _ _ Hs).
    apply Nat.ltb_ge in Hb. rewrite Hb. rewrite (Rltb_false _ _ Hm). reflexivity.
  - intros Hs. rewrite (Rltb_false _ _ Hs). reflexivity.
  - unfold scoreOf. apply Rmin_right. simpl. lra.
  - replace (scoreOf 2 0.15 0.5) with 1
      by (symmetry; unfold scoreOf; apply Rmin_right; simpl; lra).
    rewrite (Rltb_true 0.7 1) by lra. rewrite (Rltb_false 0.15 0.1) by lra.
    reflexivity.
Qed.

Lemma guidance_priority_witness :
  guidance 0.9 1 0.5 = "Please blink naturally (1/2 blinks)"%string /\
  guidance 0.9 2 0.05 = "Please move your head slightly"%string.
Proof.
  split.
  - destruct (guidance_priority Component.initialState (faceOf 0.3) 0.3 0.1 0.9 0.5 1)
      as (_ & H & _). apply H; [ lra | lia ].
  - destruct (guidance_priority Component.initialState (faceOf 0.3) 0.3 0.1 0.9 0.05 2)
      as (_ & _ & H & _). apply H; [ lra | lia | lra ].
Defined.

(** ** Frames without a face *)

(** C9: on a frame with no detection the EAR history, the position history
    and the blink count are what they were (and so is the stored score);
    the message becomes the no-face message and nothing is drawn for the
    eyes.  This holds in both files. *)
Theorem no_face_frame_only_message :
  (forall s : Component.State,
     let s' := fst (Component.handleVideoPlayTick s []) in
     Component.lastEARRef s' = Component.lastEARRef s /\
     Component.lastPositionsRef s' = Component.lastPositionsRef s /\
     Component.blinkCountRef s' = Component.blinkCountRef s /\
     Component.livenessScore s' = Component.livenessScore s /\
     Component.message s'
       = "No face detected. Please position your face in the center box."%string /\
     snd (Component.handleVideoPlayTick s []) = None) /\
  (forall s : Part000.State,
     let s' := fst (Part000.handleVideoPlayTick s []) in
     Part000.lastEARRef s' = Part000.lastEARRef s /\
     Part000.lastPositionsRef s' = Part000.lastPositionsRef s /\
     Part000.blinkCountRef s' = Part000.blinkCountRef s /\
     Part000.livenessScore s' = Part000.livenessScore s /\
     Part000.debugInfo s' = Part000.debugInfo s /\
     Part000.message s'
       = "No face detected. Please position your face in the center box."%string /\
     snd (Part000.handleVideoPlayTick s []) = None).
Proof.
  split; intros s; cbn; repeat split; reflexivity.
Qed.

(** ** Blink detection *)

Lemma detectionEAR_faceOf (a : R) : 0 <= a -> detectionEAR (faceOf a) = a.
Proof.
  intros Ha. unfold detectionEAR, calculateEAR, faceOf.
  cbn [landmarks getLeftEye getRightEye].
  rewrite getEAR_eyeOf by exact Ha. lra.
Qed.

Lemma map_detectionEAR_faceOf (ears : list R) :
  Forall (fun a => 0 <= a) ears -> map detectionEAR (map faceOf ears) = ears.
Proof.
  induction 1 as [ | a ears Ha Hpos IH]; cbn [map].
  - reflexivity.
  - rewrite detectionEAR_faceOf by exact Ha. rewrite IH. reflexivity.
Qed.

(** [detectBlink] of the component adds one exactly on a falling edge of
    the history it finds, and touches nothing else. *)
Lemma Component_detectBlink_effect (s : Component.State) (lm : Landmarks) :
  let currentEAR := calculateEAR (getLeftEye lm) (getRightEye lm) in
  let count' := (Component.blinkCountRef s
                 + (if fallingEdge (Component.lastEARRef s) currentEAR then 1 else 0))%nat in
  Component.detectBlink s lm
  = (Component.mkState (Component.lastPositionsRef s) count' (Component.lastEARRef s)
                       (Component.livenessScore s) (Component.message s),
     count').
Proof.
  unfold Component.detectBlink, fallingEdge, blinkThreshold.
  destruct (3 <=? length (Component.lastEARRef s))%nat; cbn [andb].
  - match goal with |- context [if (?c1 && ?c2) then _ else _] =>
      destruct (c1 && c2) end.
    + reflexivity.
    + rewrite Nat.add_0_r. destruct s; reflexivity.
  - rewrite Nat.add_0_r. destruct s; reflexivity.
Qed.

(** One face frame of the component: the sample is pushed once and the
    count moves by the falling edge of the extended history. *)
Lemma Component_tick_face (s : Component.State) (d : Detection) (rest : list Detection) :
  let currentEAR := detectionEAR d in
  let history' := pushShift (Component.lastEARRef s) currentEAR in
  let s' := fst (Component.handleVideoPlayTick s (d :: rest)) in
  Component.lastEARRef s' = history' /\
  Component.blinkCountRef s'
  = (Component.blinkCountRef s + (if fallingEdge history' currentEAR then 1 else 0))%nat /\
  snd (Component.handleVideoPlayTick s (d :: rest))
  = Some (Rltb currentEAR (calculateBaselineEAR history' * 0.75)).
Proof.
  unfold Component.handleVideoPlayTick, Component.updateLivenessScore. cbn [fst snd].
  rewrite Component_detectBlink_effect.
  unfold Component.updateEARHistory, Component.detectMovement.
  cbn. repeat split; reflexivity.
Qed.

(** A run of face frames moves the history and the count as [blinkTrace]
    does on the ratios of the frames. *)
Lemma Component_runFrames_trace (s : Component.State) (ds : list Detection) :
  let s' := Component.runFrames s (faceFrames ds) in
  (Component.lastEARRef s', Component.blinkCountRef s')
  = blinkTrace (Component.lastEARRef s) (Component.blinkCountRef s)
      (map detectionEAR ds).
Proof.
  revert s. induction ds as [ | d ds IH]; intros s.
  - reflexivity.
  - cbn [map blinkTrace faceFrames]. unfold Component.runFrames in *. cbn [fold_left].
    cbv zeta in IH. unfold faceFrames in IH. rewrite IH.
    destruct (Component_tick_face s d []) as (Hh & Hc & _).
    rewrite Hh, Hc. reflexivity.
Qed.

Lemma Component_runFrames_count (s : Component.State) (ds : list Detection) :
  Component.blinkCountRef (Component.runFrames s (faceFrames ds))
  = snd (blinkTrace (Component.lastEARRef s) (Component.blinkCountRef s)
           (map detectionEAR ds)).
Proof. rewrite <- Component_runFrames_trace. reflexivity. Qed.

Lemma Component_runFrames_history (s : Component.State) (ds : list Detection) :
  Component.lastEARRef (Component.runFrames s (faceFrames ds))
  = fst (blinkTrace (Component.lastEARRef s) (Component.blinkCountRef s)
           (map detectionEAR ds)).
Proof. rewrite <- Component_runFrames_trace. reflexivity. Qed.

Lemma blinkTrace_step (history history' : list R) (count : nat) (e : R)
    (rest : list R) (edge : bool) :
  pushShift history e = history' ->
  fallingEdge history' e = edge ->
  blinkTrace history count (e :: rest)
  = blinkTrace history' (count + (if edge then 1 else 0)) rest.
Proof. intros <- <-. reflexivity. Qed.

Lemma closedRun_step (history history' : list R) (e : R) (rest : list R) :
  pushShift history e = history' ->
  (3 <= length history')%nat ->
  e < blinkThreshold history' ->
  closedRun history' rest ->
  closedRun history (e :: rest).
Proof. intros <- Hlen Hlt Hrest. cbn [closedRun]. auto. Qed.

Lemma fallingEdge_spec (history : list R) (e : R) :
  fallingEdge history e = true <->
  (3 <= length history)%nat /\
  calculateBaselineEAR history * 0.65 < nth (length history - 2) history 0 /\
  e < calculateBaselineEAR history * 0.65.
Proof.
  unfold fallingEdge, blinkThreshold.
  rewrite !andb_true_iff, !Rltb_spec, Nat.leb_le. tauto.
Qed.

Lemma pushShift_snoc {A : Type} (h : list A) (a : A) :
  exists l, pushShift h a = l ++ [a].
Proof.
  unfold pushShift. destruct (10 <? length (h ++ [a]))%nat eqn:E.
  - destruct h as [ | x h'].
    + simpl in E. discriminate.
    + exists h'. reflexivity.
  - exists h. reflexivity.
Qed.

Lemma pushShift_last2 {A : Type} (h : list A) (a b : A) :
  exists l, pushShift (pushShift h a) b = l ++ [a; b].
Proof.
  destruct (pushShift_snoc h a) as [l1 ->].
  unfold pushShift. rewrite <- app_assoc. cbn [app].
  destruct (10 <? length (l1 ++ [a; b]))%nat eqn:E.
  - destruct l1 as [ | x l1'].
    + simpl in E. discriminate.
    + exists l1'. reflexivity.
  - exists l1. reflexivity.
Qed.

Lemma nth_second_to_last (l : list R) (a b : R) :
  nth (length (l ++ [a; b]) - 2) (l ++ [a; b]) 0 = a.
Proof.
  rewrite length_app. cbn [length].
  replace (length l + 2 - 2)%nat with (length l) by lia.
  rewrite app_nth2 by lia. rewrite Nat.sub_diag. reflexivity.
Qed.

(** After two pushes the sample the detector calls [prev] is the first of
    the two. *)
Lemma prev_after_two_pushes (h : list R) (a b : R) :
  let h2 := pushShift (pushShift h a) b in
  nth (length h2 - 2) h2 0 = a.
Proof.
  cbv zeta. destruct (pushShift_last2 h a b) as [l ->]. apply nth_second_to_last.
Qed.

(** No falling edge when the previous frame was already below a threshold
    that has not fallen since. *)
Lemma fallingEdge_after_closed (h : list R) (a b : R) :
  a < blinkThreshold (pushShift h a) ->
  blinkThreshold (pushShift h a) <= blinkThreshold (pushShift (pushShift h a) b) ->
  fallingEdge (pushShift (pushShift h a) b) b = false.
Proof.
  intros Ha Hthr. unfold fallingEdge. rewrite prev_after_two_pushes.
  rewrite (Rltb_false _ a) by lra.
  apply andb_false_r.
Qed.

Lemma blinkTrace_after_closed (h : list R) (a : R) (count : nat) (ears : list R) :
  a < blinkThreshold (pushShift h a) ->
  match ears with
  | [] => True
  | e2 :: _ => blinkThreshold (pushShift h a)
               <= blinkThreshold (pushShift (pushShift h a) e2)
  end ->
  steadyClosedRun (pushShift h a) ears ->
  snd (blinkTrace (pushShift h a) count ears) = count.
Proof.
  revert h a count. induction ears as [ | e rest IH]; intros h a count Ha Hthr Hrun.
  - reflexivity.
  - cbn [blinkTrace]. cbn [steadyClosedRun] in Hrun.
    destruct Hrun as (He & Hnext & Hrest).
    rewrite fallingEdge_after_closed by assumption.
    rewrite Nat.add_0_r. apply IH; assumption.
Qed.

Lemma blinkTrace_steady_bound (h : list R) (count : nat) (ears : list R) :
  steadyClosedRun h ears ->
  (count <= snd (blinkTrace h count ears) <= count + 1)%nat.
Proof.
  destruct ears as [ | e rest]; intros Hrun.
  - cbn. lia.
  - cbn [blinkTrace]. cbn [steadyClosedRun] in Hrun.
    destruct Hrun as (He & Hnext & Hrest).
    rewrite blinkTrace_after_closed by assumption.
    destruct (fallingEdge (pushShift h e) e); lia.
Qed.

Lemma blinkTrace_monotone (h : list R) (count : nat) (ears : list R) :
  (count <= snd (blinkTrace h count ears))%nat.
Proof.
  revert h count. induction ears as [ | e rest IH]; intros h count.
  - cbn. lia.
  - cbn [blinkTrace]. eapply Nat.le_trans; [ | apply IH ]. lia.
Qed.

(** What [detectBlink] of part_000 does to the history and the count. *)
Lemma Part000_detectBlink_effect (s : Part000.State) (lm : Landmarks) :
  let ear := calculateEAR (getLeftEye lm) (getRightEye lm) in
  let history' := pushShift (Part000.lastEARRef s) ear in
  let count' := (Part000.blinkCountRef s
                 + (if fallingEdge history' ear then 1 else 0))%nat in
  let r := Part000.detectBlink s lm in
  Part000.lastEARRef (fst r) = history' /\
  Part000.blinkCountRef (fst r) = count' /\
  snd r = count' /\
  Part000.lastPositionsRef (fst r) = Part000.lastPositionsRef s /\
  Part000.livenessScore (fst r) = Part000.livenessScore s /\
  Part000.message (fst r) = Part000.message s.
Proof.
  unfold Part000.detectBlink, Part000.getEyeAspectRatio, fallingEdge, blinkThreshold,
    calculateBaselineEAR, calculateEAR.
  cbn [Part000.pushEAR Part000.lastEARRef].
  destruct (3 <=? length _)%nat; cbn [andb].
  - match goal with |- context [if (?c1 && ?c2) then _ else _] =>
      destruct (c1 && c2) end;
      cbn; rewrite ?Nat.add_0_r; repeat split; reflexivity.
  - cbn; rewrite ?Nat.add_0_r; repeat split; reflexivity.
Qed.

(** One face frame of part_000: the frame loop pushes the sample, then
    [detectBlink] pushes it again. *)
Lemma Part000_tick_face (s : Part000.State) (d : Detection) (rest : list Detection) :
  let currentEAR :=
    calculateEAR (getLeftEye (landmarks d)) (getRightEye (landmarks d)) in
  let history2 := pushShift (pushShift (Part000.lastEARRef s) currentEAR) currentEAR in
  let s' := fst (Part000.handleVideoPlayTick s (d :: rest)) in
  Part000.lastEARRef s' = history2 /\
  Part000.blinkCountRef s'
  = (Part000.blinkCountRef s + (if fallingEdge history2 currentEAR then 1 else 0))%nat.
Proof.
  cbv zeta. unfold Part000.handleVideoPlayTick.
  set (ear := calculateEAR _ _).
  change ((Part000.getEyeAspectRatio (getLeftEye (landmarks d))
           + Part000.getEyeAspectRatio (getRightEye (landmarks d))) / 2) with ear.
  pose proof (Part000_detectBlink_effect (Part000.pushEAR s ear) (landmarks d)) as H.
  cbv zeta in H. fold ear in H.
  destruct (Part000.detectBlink (Part000.pushEAR s ear) (landmarks d)) as [s2 blinkCount].
  cbn [fst snd] in H. destruct H as (Hh & Hc & _).
  unfold Part000.detectMovement. cbn. split; assumption.
Qed.

Lemma fallingEdge_same_sample (h : list R) (e : R) :
  fallingEdge (pushShift (pushShift h e) e) e = false.
Proof.
  unfold fallingEdge. rewrite prev_after_two_pushes.
  destruct (Rlt_dec (blinkThreshold (pushShift (pushShift h e) e)) e) as [H | H].
  - rewrite (Rltb_false e) by lra. rewrite andb_false_r. apply andb_false_r.
  - rewrite (Rltb_false _ e) by lra. apply andb_false_r.
Qed.

Lemma Part000_tick_count (s : Part000.State) (f : list Detection) :
  Part000.blinkCountRef (fst (Part000.handleVideoPlayTick s f)) = Part000.blinkCountRef s.
Proof.
  destruct f as [ | d rest].
  - reflexivity.
  - destruct (Part000_tick_face s d rest) as (_ & Hc).
    rewrite Hc, fallingEdge_same_sample. lia.
Qed.

(** C3 (as amended): a face frame never lowers the blink count; the count
    grows by exactly 1 when the history, the new sample included, holds at
    least 3 samples and its second-to-last sample is above
    [baseline * 0.65] while the current ratio is below it, and by 0
    otherwise.  This holds for the component's frame ([updateEARHistory]
    then [detectBlink]) and for [detectBlink] of part_000, which pushes
    itself.  Over a run of closed-eye frames whose threshold does not fall
    from frame to frame the count grows by one at most. *)
Theorem blink_count_falling_edge :
  (forall (s : Component.State) (d : Detection) (rest : list Detection),
     let currentEAR :=
       calculateEAR (getLeftEye (landmarks d)) (getRightEye (landmarks d)) in
     let history := pushShift (Component.lastEARRef s) currentEAR in
     let threshold := calculateBaselineEAR history * 0.65 in
     let prev := nth (length history - 2) history 0 in
     let count := Component.blinkCountRef s in
     let count' := Component.blinkCountRef (fst (Component.handleVideoPlayTick s (d :: rest))) in
     (count <= count')%nat /\
     ((3 <= length history)%nat /\ threshold < prev /\ currentEAR < threshold ->
      count' = (count + 1)%nat) /\
     (~ ((3 <= length history)%nat /\ threshold < prev /\ currentEAR < threshold) ->
      count' = count)) /\
  (forall (s : Part000.State) (lm : Landmarks),
     let currentEAR := calculateEAR (getLeftEye lm) (getRightEye lm) in
     let history := pushShift (Part000.lastEARRef s) currentEAR in
     let threshold := calculateBaselineEAR history * 0.65 in
     let prev := nth (length history - 2) history 0 in
     let count := Part000.blinkCountRef s in
     let count' := snd (Part000.detectBlink s lm) in
     count' = Part000.blinkCountRef (fst (Part000.detectBlink s lm)) /\
     (count <= count')%nat /\
     ((3 <= length history)%nat /\ threshold < prev /\ currentEAR < threshold ->
      count' = (count + 1)%nat) /\
     (~ ((3 <= length history)%nat /\ threshold < prev /\ currentEAR < threshold) ->
      count' = count)) /\
  (forall (s : Component.State) (ds : list Detection),
     steadyClosedRun (Component.lastEARRef s) (map detectionEAR ds) ->
     let count' := Component.blinkCountRef (Component.runFrames s (faceFrames ds)) in
     (Component.blinkCountRef s <= count' <= Component.blinkCountRef s + 1)%nat).
Proof.
  split; [ | split ].
  - intros s d rest. cbv zeta.
    destruct (Component_tick_face s d rest) as (_ & Hc & _). rewrite Hc.
    unfold detectionEAR. rewrite <- fallingEdge_spec.
    destruct (fallingEdge _ _); repeat split; intros; try lia;
      try discriminate; exfalso; auto.
  - intros s lm. cbv zeta.
    destruct (Part000_detectBlink_effect s lm) as (_ & Hc & Hr & _).
    rewrite Hr, Hc. rewrite <- fallingEdge_spec.
    destruct (fallingEdge _ _); repeat split; intros; try lia;
      try discriminate; exfalso; auto.
  - intros s ds Hrun. cbv zeta. rewrite Component_runFrames_count.
    apply blinkTrace_steady_bound, Hrun.
Qed.

(** The third frame of the sequence 0.30, 0.32, 0.05 is counted. *)
Lemma blink_count_falling_edge_witness :
  Component.blinkCountRef (fst (Component.handleVideoPlayTick afterTwoOpenFrames [faceOf 0.05]))
  = 1%nat.
Proof.
  destruct blink_count_falling_edge as (H & _).
  specialize (H afterTwoOpenFrames (faceOf 0.05) []). cbv zeta in H.
  destruct H as (_ & Hinc & _).
  fold (detectionEAR (faceOf 0.05)) in Hinc.
  rewrite detectionEAR_faceOf in Hinc by lra.
  apply Hinc.
  unfold afterTwoOpenFrames; cbn [Component.lastEARRef].
  replace (pushShift [0.30; 0.32] 0.05) with [0.30; 0.32; 0.05] by reflexivity.
  cbn [length Nat.sub nth].
  unfold calculateBaselineEAR, sumR. reval.
  repeat split; [ lia | lra | lra ].
Defined.

(** C3, as the specification words it: the eyes stay shut for ten frames after two
    open ones, every one of the ten samples lies below the blink threshold
    of its frame, and the closure is counted twice: once at the edge, and
    once more on the tenth frame, when the open-eye samples have left the
    ten-sample window and the baseline has sunk to the closed-eye level. *)
Lemma sustained_closure_counted_twice :
  let s0 := Component.runFrames Component.initialState (faceFrames (map faceOf openEars)) in
  let shut := map faceOf shutEars in
  Component.lastEARRef s0 = [0.45; 0.45] /\
  Component.blinkCountRef s0 = 0%nat /\
  map detectionEAR shut
  = [0.10; 0.15; 0.15; 0.15; 0.15; 0.15; 0.15; 0.15; 0.15; 0.05] /\
  closedRun (Component.lastEARRef s0) (map detectionEAR shut) /\
  Component.blinkCountRef (Component.runFrames s0 (faceFrames shut)) = 2%nat /\
  ~ noDoubleCounting.
Proof.
  cbv zeta.
  assert (Hopen : map detectionEAR (map faceOf openEars) = openEars)
    by (apply map_detectionEAR_faceOf; unfold openEars; repeat constructor; lra).
  assert (Hshut : map detectionEAR (map faceOf shutEars) = shutEars)
    by (apply map_detectionEAR_faceOf; unfold shutEars; repeat constructor; lra).
  assert (Htrace0 : blinkTrace [] 0 openEars = (openEars, 0%nat)).
  { unfold openEars.
    do 2 (erewrite blinkTrace_step;
          [ | cbv [pushShift app length Nat.ltb Nat.leb tl]; reflexivity
            | unfold fallingEdge, blinkThreshold, calculateBaselineEAR, sumR, Rltb;
              reval; reflexivity ];
          cbn [Nat.add]).
    reflexivity. }
  assert (Hclosed : closedRun openEars shutEars).
  { unfold openEars, shutEars.
    do 10 (eapply closedRun_step;
           [ cbv [pushShift app length Nat.ltb Nat.leb tl]; reflexivity
           | cbn [length]; lia
           | unfold blinkThreshold, calculateBaselineEAR, sumR; reval; lra
           | ]).
    exact I. }
  assert (Htrace : snd (blinkTrace openEars 0 shutEars) = 2%nat).
  { unfold openEars, shutEars.
    do 10 (erewrite blinkTrace_step;
           [ | cbv [pushShift app length Nat.ltb Nat.leb tl]; reflexivity
             | unfold fallingEdge, blinkThreshold, calculateBaselineEAR, sumR, Rltb;
               reval; reflexivity ];
           cbn [Nat.add]).
    reflexivity. }
  assert (Hh0 : Component.lastEARRef
                  (Component.runFrames Component.initialState
                     (faceFrames (map faceOf openEars))) = openEars).
  { rewrite Component_runFrames_history, Hopen.
    cbn [Component.initialState Component.lastEARRef Component.blinkCountRef].
    rewrite Htrace0. reflexivity. }
  assert (Hc0 : Component.blinkCountRef
                  (Component.runFrames Component.initialState
                     (faceFrames (map faceOf openEars))) = 0%nat).
  { rewrite Component_runFrames_count, Hopen.
    cbn [Component.initialState Component.lastEARRef Component.blinkCountRef].
    rewrite Htrace0. reflexivity. }
  assert (Hc1 : Component.blinkCountRef
                  (Component.runFrames
                     (Component.runFrames Component.initialState
                        (faceFrames (map faceOf openEars)))
                     (faceFrames (map faceOf shutEars))) = 2%nat).
  { rewrite Component_runFrames_count, Hshut, Hh0, Hc0. exact Htrace. }
  rewrite Hshut, Hh0, Hc0, Hc1.
  split; [ reflexivity | ]. split; [ reflexivity | ].
  split; [ reflexivity | ]. split; [ exact Hclosed | ]. split; [ reflexivity | ].
  intros Hno.
  specialize (Hno (Component.runFrames Component.initialState
                     (faceFrames (map faceOf openEars)))
                  (map faceOf shutEars)).
  rewrite Hshut, Hh0, Hc0, Hc1 in Hno.
  specialize (Hno Hclosed). lia.
Qed.

(** C10: in part_000 the blink count stays 0 whatever frames arrive.  The
    frame loop pushes the current ratio, [detectBlink] pushes the same
    value again, so the second-to-last sample it reads is the current
    ratio itself and the falling-edge test fails; the value it returns to
    the score is 0 on every frame. *)
Theorem part000_blink_count_stays_zero :
  (forall frames : list (list Detection),
     Part000.blinkCountRef (Part000.runFrames Part000.initialState frames) = 0%nat) /\
  (forall (frames : list (list Detection)) (d : Detection),
     let s := Part000.runFrames Part000.initialState frames in
     let currentEAR :=
       calculateEAR (getLeftEye (landmarks d)) (getRightEye (landmarks d)) in
     let r := Part000.detectBlink (Part000.pushEAR s currentEAR) (landmarks d) in
     let history := Part000.lastEARRef (fst r) in
     history = pushShift (pushShift (Part000.lastEARRef s) currentEAR) currentEAR /\
     nth (length history - 2) history 0 = currentEAR /\
     snd r = 0%nat) /\
  (forall (s : Part000.State) (f : list Detection),
     Part000.blinkCountRef (fst (Part000.handleVideoPlayTick s f)) = Part000.blinkCountRef s).
Proof.
  assert (Hrun : forall frames s,
            Part000.blinkCountRef (Part000.runFrames s frames) = Part000.blinkCountRef s).
  { induction frames as [ | f frames IH]; intros s.
    - reflexivity.
    - unfold Part000.runFrames in *. cbn [fold_left].
      rewrite IH. apply Part000_tick_count. }
  split; [ | split ].
  - intros frames. rewrite Hrun. reflexivity.
  - intros frames d. cbv zeta.
    destruct (Part000_detectBlink_effect
                (Part000.pushEAR (Part000.runFrames Part000.initialState frames)
                   (calculateEAR (getLeftEye (landmarks d)) (getRightEye (landmarks d))))
                (landmarks d)) as (Hh & _ & Hr & _).
    cbn [Part000.pushEAR Part000.lastEARRef Part000.blinkCountRef] in Hh, Hr.
    rewrite Hh, Hr. repeat split.
    + apply prev_after_two_pushes.
    + rewrite fallingEdge_same_sample, Hrun. reflexivity.
  - apply Part000_tick_count.
Qed.

(** C2: a face frame of the component appends its sample once, and the
    display flag and the blink test are computed from that one extended
    history; a face frame of part_000 appends the sample twice, once in
    the frame loop and once in [detectBlink], so after the first frame
    with ratio 0.3 the history is [0.3; 0.3]. *)
Theorem part000_pushes_sample_twice :
  (forall (s : Component.State) (d : Detection) (rest : list Detection),
     let currentEAR :=
       calculateEAR (getLeftEye (landmarks d)) (getRightEye (landmarks d)) in
     let history := pushShift (Component.lastEARRef s) currentEAR in
     let r := Component.handleVideoPlayTick s (d :: rest) in
     Component.lastEARRef (fst r) = history /\
     snd r = Some (Rltb currentEAR (calculateBaselineEAR history * 0.75)) /\
     Component.blinkCountRef (fst r)
     = (Component.blinkCountRef s + (if fallingEdge history currentEAR then 1 else 0))%nat) /\
  (forall (s : Part000.State) (d : Detection) (rest : list Detection),
     let currentEAR :=
       calculateEAR (getLeftEye (landmarks d)) (getRightEye (landmarks d)) in
     Part000.lastEARRef (fst (Part000.handleVideoPlayTick s (d :: rest)))
     = pushShift (pushShift (Part000.lastEARRef s) currentEAR) currentEAR) /\
  Component.lastEARRef (fst (Component.handleVideoPlayTick Component.initialState [faceOf 0.3]))
  = [0.3] /\
  Part000.lastEARRef (fst (Part000.handleVideoPlayTick Part000.initialState [faceOf 0.3]))
  = [0.3; 0.3].
Proof.
  split; [ | split; [ | split ] ].
  - intros s d rest. cbv zeta.
    destruct (Component_tick_face s d rest) as (Hh & Hc & Hd).
    unfold detectionEAR in *. auto.
  - intros s d rest. apply Part000_tick_face.
  - destruct (Component_tick_face Component.initialState (faceOf 0.3) []) as (H & _).
    rewrite H, detectionEAR_faceOf by lra. reflexivity.
  - destruct (Part000_tick_face Part000.initialState (faceOf 0.3) []) as (H & _).
    fold (detectionEAR (faceOf 0.3)) in H.
    rewrite H, detectionEAR_faceOf by lra. reflexivity.
Qed.

(** * Further properties of the code *)

(** ** Distances and the eye aspect ratio *)

Lemma sum_sqr_nonneg (x y : R) : 0 <= x ^ 2 + y ^ 2.
Proof. apply Rplus_le_le_0_compat; apply pow2_ge_0. Qed.

Lemma sum_sqr_zero (x y : R) : x ^ 2 + y ^ 2 = 0 -> x = 0 /\ y = 0.
Proof.
  intros H. pose proof (pow2_ge_0 x) as Hx. pose proof (pow2_ge_0 y) as Hy.
  assert (Hx0 : x ^ 2 = 0) by lra. assert (Hy0 : y ^ 2 = 0) by lra.
  split; apply Rsqr_eq_0; unfold Rsqr; lra.
Qed.

Lemma euclideanDistance_sym (a b : Point) :
  euclideanDistance a b = euclideanDistance b a.
Proof. unfold euclideanDistance. f_equal. ring. Qed.

Lemma euclideanDistance_zero_iff (a b : Point) :
  euclideanDistance a b = 0 <-> a = b.
Proof.
  split.
  - intros H. unfold euclideanDistance in H.
    apply sqrt_eq_0 in H; [ | apply sum_sqr_nonneg ].
    apply sum_sqr_zero in H. destruct H as [Hx Hy].
    destruct a as [ax ay], b as [bx by']. cbn [px py] in *.
    f_equal; lra.
  - intros ->. apply euclideanDistance_coincide; reflexivity.
Qed.

(** X1: [euclideanDistance] is symmetric, never negative, and 0 exactly
    when its two points are the same. *)
Theorem euclideanDistance_symmetric_definite (a b : Point) :
  euclideanDistance a b = euclideanDistance b a /\
  0 <= euclideanDistance a b /\
  (euclideanDistance a b = 0 <-> a = b).
Proof.
  split; [ apply euclideanDistance_sym | ].
  split; [ apply euclideanDistance_nonneg | apply euclideanDistance_zero_iff ].
Qed.

Lemma euclideanDistance_translate (dx dy : R) (a b : Point) :
  euclideanDistance (translatePoint dx dy a) (translatePoint dx dy b)
  = euclideanDistance a b.
Proof. unfold euclideanDistance, translatePoint; cbn [px py]. f_equal. ring. Qed.

Lemma getEAR_nonneg (eye : Eye) : 0 <= getEAR eye.
Proof.
  unfold getEAR.
  pose proof (euclideanDistance_nonneg (eye1 eye) (eye5 eye)) as H1.
  pose proof (euclideanDistance_nonneg (eye2 eye) (eye4 eye)) as H2.
  destruct (Rlt_dec 0 (euclideanDistance (eye0 eye) (eye3 eye))) as [Hh | Hh]; [ | lra ].
  apply Rmult_le_pos; [ | lra ].
  apply Rmult_le_pos; [ lra | ].
  apply Rlt_le, Rinv_0_lt_compat. lra.
Qed.

Lemma calculateEAR_nonneg (l r : Eye) : 0 <= calculateEAR l r.
Proof.
  unfold calculateEAR.
  pose proof (getEAR_nonneg l). pose proof (getEAR_nonneg r). lra.
Qed.

(** X3: the eye aspect ratio is never negative, and it is 0 exactly when
    the two corners [eye[0]], [eye[3]] coincide or both lid pairs
    [eye[1]], [eye[5]] and [eye[2]], [eye[4]] do; the two-eye average
    [calculateEAR] is never negative either. *)
Theorem getEAR_nonneg_zero_iff (eye other : Eye) :
  0 <= getEAR eye /\
  0 <= calculateEAR eye other /\
  (getEAR eye = 0 <->
   eye0 eye = eye3 eye \/ (eye1 eye = eye5 eye /\ eye2 eye = eye4 eye)).
Proof.
  split; [ apply getEAR_nonneg | split; [ apply calculateEAR_nonneg | ] ].
  pose proof (euclideanDistance_nonneg (eye0 eye) (eye3 eye)) as Hh0.
  pose proof (euclideanDistance_nonneg (eye1 eye) (eye5 eye)) as H10.
  pose proof (euclideanDistance_nonneg (eye2 eye) (eye4 eye)) as H20.
  pose proof (euclideanDistance_zero_iff (eye0 eye) (eye3 eye)) as Hhz.
  pose proof (euclideanDistance_zero_iff (eye1 eye) (eye5 eye)) as H1z.
  pose proof (euclideanDistance_zero_iff (eye2 eye) (eye4 eye)) as H2z.
  unfold getEAR.
  destruct (Rlt_dec 0 (euclideanDistance (eye0 eye) (eye3 eye))) as [Hh | Hh].
  - split.
    + intros Hz. right.
      assert (Hinv : 0 < / (2 * euclideanDistance (eye0 eye) (eye3 eye)))
        by (apply Rinv_0_lt_compat; lra).
      assert (Hsum : euclideanDistance (eye1 eye) (eye5 eye)
                     + euclideanDistance (eye2 eye) (eye4 eye) = 0).
      { unfold Rdiv in Hz. nra. }
      split; [ apply H1z | apply H2z ]; lra.
    + intros [Hc | [Hc1 Hc2]].
      * apply Hhz in Hc. lra.
      * apply H1z in Hc1. apply H2z in Hc2. rewrite Hc1, Hc2.
        unfold Rdiv. ring.
  - split; [ | reflexivity ].
    intros _. left. apply Hhz. lra.
Qed.

(** X4: moving all six points of an eye by the same offset leaves its
    ratio unchanged, and so the two-eye average does not depend on where
    in the image the face is. *)
Theorem getEAR_translation_invariant (dx dy : R) (eye other : Eye) :
  getEAR (translateEye dx dy eye) = getEAR eye /\
  calculateEAR (translateEye dx dy eye) (translateEye dx dy other)
  = calculateEAR eye other.
Proof.
  assert (H : forall e, getEAR (translateEye dx dy e) = getEAR e).
  { intros e. unfold getEAR, translateEye; cbn [eye0 eye1 eye2 eye3 eye4 eye5].
    rewrite !euclideanDistance_translate. reflexivity. }
  split; [ apply H | ]. unfold calculateEAR. rewrite !H. reflexivity.
Qed.

(** X5: the ratio does not depend on the corner from which the six points
    are numbered, nor on which lid comes first, and [calculateEAR] gives
    the same value when the left and the right eye change places. *)
Theorem getEAR_renumbering_invariant (eye other : Eye) :
  getEAR (renumberFromOtherCorner eye) = getEAR eye /\
  getEAR (swapLids eye) = getEAR eye /\
  calculateEAR other eye = calculateEAR eye other.
Proof.
  split; [ | split ].
  - unfold getEAR, renumberFromOtherCorner; cbn [eye0 eye1 eye2 eye3 eye4 eye5].
    rewrite (euclideanDistance_sym (eye3 eye) (eye0 eye)).
    destruct (Rlt_dec 0 (euclideanDistance (eye0 eye) (eye3 eye))); [ | reflexivity ].
    f_equal. f_equal. ring.
  - unfold getEAR, swapLids; cbn [eye0 eye1 eye2 eye3 eye4 eye5].
    rewrite (euclideanDistance_sym (eye5 eye) (eye1 eye)).
    rewrite (euclideanDistance_sym (eye4 eye) (eye2 eye)).
    reflexivity.
  - unfold calculateEAR. f_equal. ring.
Qed.

(** ** The two rolling windows *)

Lemma pushShift_cases {A : Type} (h : list A) (x : A) :
  (length h <= 10)%nat ->
  (length h < 10 /\ pushShift h x = h ++ [x])%nat \/
  (length h = 10%nat /\ pushShift h x = tl h ++ [x]).
Proof.
  intros Hlen. unfold pushShift. rewrite length_app. cbn [length].
  destruct (10 <? length h + 1)%nat eqn:E.
  - apply Nat.ltb_lt in E. right. split; [ lia | ].
    destruct h as [ | a h']; [ cbn in E; lia | reflexivity ].
  - apply Nat.ltb_ge in E. left. split; [ lia | reflexivity ].
Qed.

Lemma pushShift_length {A : Type} (h : list A) (x : A) :
  (length h <= 10)%nat ->
  length (pushShift h x) = Nat.min (S (length h)) 10.
Proof.
  intros Hlen. destruct (pushShift_cases h x Hlen) as [[Hlt ->] | [Heq ->]];
    rewrite length_app; cbn [length].
  - lia.
  - destruct h as [ | a h']; cbn [tl length] in *; lia.
Qed.

Lemma lastN_all {A : Type} (n : nat) (l : list A) :
  (length l <= n)%nat -> lastN n l = l.
Proof.
  intros H. unfold lastN. replace (length l - n)%nat with 0%nat by lia. reflexivity.
Qed.

Lemma lastN_length {A : Type} (n : nat) (l : list A) :
  length (lastN n l) = Nat.min n (length l).
Proof. unfold lastN. rewrite length_skipn. lia. Qed.

Lemma lastN_app_long {A : Type} (n : nat) (a l : list A) :
  (n <= length l)%nat -> lastN n (a ++ l) = lastN n l.
Proof.
  intros H. unfold lastN. rewrite length_app, skipn_app.
  replace (length a + length l - n - length a)%nat with (length l - n)%nat by lia.
  rewrite skipn_all2 by lia. reflexivity.
Qed.

Lemma lastN_split {A : Type} (n : nat) (l : list A) :
  exists a, l = a ++ lastN n l.
Proof. exists (firstn (length l - n) l). unfold lastN. symmetry. apply firstn_skipn. Qed.

Lemma lastN_app_lastN {A : Type} (n : nat) (l r : list A) :
  lastN n (lastN n l ++ r) = lastN n (l ++ r).
Proof.
  destruct (Nat.le_gt_cases (length l) n) as [Hle | Hgt].
  - rewrite (lastN_all n l Hle). reflexivity.
  - destruct (lastN_split n l) as [a Ha].
    rewrite Ha at 2. rewrite <- app_assoc.
    symmetry. apply lastN_app_long.
    rewrite length_app, lastN_length. lia.
Qed.

Lemma pushShift_lastN {A : Type} (h : list A) (x : A) :
  (length h <= 10)%nat -> pushShift h x = lastN 10 (h ++ [x]).
Proof.
  intros Hlen. destruct (pushShift_cases h x Hlen) as [[Hlt ->] | [Heq ->]].
  - symmetry. apply lastN_all. rewrite length_app. cbn [length]. lia.
  - unfold lastN. rewrite length_app. cbn [length].
    replace (length h + 1 - 10)%nat with 1%nat by lia.
    destruct h as [ | a h']; [ cbn in Heq; lia | reflexivity ].
Qed.

(** X6: on a window of at most ten samples [updateEARHistory] keeps the
    last ten of the old samples followed by the new one: the new sample
    is always the last element, nothing is dropped below ten samples, and
    at ten the oldest sample leaves and the rest keep their order. *)
Theorem updateEARHistory_fifo (s : Component.State) (currentEAR : R) :
  (length (Component.lastEARRef s) <= 10)%nat ->
  let history' := Component.lastEARRef (Component.updateEARHistory s currentEAR) in
  history' = lastN 10 (Component.lastEARRef s ++ [currentEAR]) /\
  length history' = Nat.min (S (length (Component.lastEARRef s))) 10 /\
  last history' 0 = currentEAR /\
  ((length (Component.lastEARRef s) < 10)%nat ->
   history' = Component.lastEARRef s ++ [currentEAR]) /\
  (length (Component.lastEARRef s) = 10%nat ->
   history' = tl (Component.lastEARRef s) ++ [currentEAR]).
Proof.
  intros Hlen. cbv zeta. unfold Component.updateEARHistory.
  cbn [Component.lastEARRef].
  split; [ apply pushShift_lastN, Hlen | ].
  split; [ apply pushShift_length, Hlen | ].
  destruct (pushShift_cases (Component.lastEARRef s) currentEAR Hlen)
    as [[Hlt ->] | [Heq ->]].
  - split; [ apply last_last | ]. split; [ reflexivity | lia ].
  - split; [ apply last_last | ]. split; [ lia | reflexivity ].
Qed.

Lemma updateEARHistory_fifo_witness :
  Component.lastEARRef
    (Component.updateEARHistory
       (Component.mkState [] 0 [1; 2; 3; 4; 5; 6; 7; 8; 9; 10] 0 msgNoFace) 11)
  = tl [1; 2; 3; 4; 5; 6; 7; 8; 9; 10] ++ [11].
Proof.
  destruct (updateEARHistory_fifo
              (Component.mkState [] 0 [1; 2; 3; 4; 5; 6; 7; 8; 9; 10] 0 msgNoFace) 11)
    as (_ & _ & _ & _ & H).
  - cbn [Component.lastEARRef length]. lia.
  - apply H. reflexivity.
Defined.

(** Everything one face frame of the component does to the state. *)
Lemma Component_tick_state (s : Component.State) (d : Detection) (rest : list Detection) :
  let history' := pushShift (Component.lastEARRef s) (detectionEAR d) in
  let positions' := pushShift (Component.lastPositionsRef s) (detectionNose d) in
  let count' := (Component.blinkCountRef s
                 + (if fallingEdge history' (detectionEAR d) then 1 else 0))%nat in
  let movement := movementOf positions' in
  let score := scoreOf count' movement (expressionChangeOf (expressions d)) in
  fst (Component.handleVideoPlayTick s (d :: rest))
  = Component.mkState positions' count' history' score (guidance score count' movement).
Proof.
  cbv zeta. unfold Component.handleVideoPlayTick, Component.updateLivenessScore.
  cbn [fst snd]. rewrite Component_detectBlink_effect.
  unfold Component.updateEARHistory, Component.detectMovement, detectionEAR, detectionNose.
  cbn. rewrite point_eta. reflexivity.
Qed.

(** ** Whole runs of frames *)

Lemma fold_pushShift_lastN {A : Type} (xs h : list A) :
  (length h <= 10)%nat ->
  fold_left pushShift xs h = lastN 10 (h ++ xs).
Proof.
  revert h. induction xs as [ | x xs IH]; intros h Hlen.
  - cbn [fold_left]. rewrite app_nil_r. symmetry. apply lastN_all, Hlen.
  - cbn [fold_left]. rewrite IH.
    + rewrite (pushShift_lastN h x Hlen), lastN_app_lastN, <- app_assoc. reflexivity.
    + rewrite pushShift_length by exact Hlen. lia.
Qed.

Lemma blinkTrace_history (ears h : list R) (count : nat) :
  fst (blinkTrace h count ears) = fold_left pushShift ears h.
Proof.
  revert h count. induction ears as [ | e ears IH]; intros h count.
  - reflexivity.
  - cbn [blinkTrace fold_left]. apply IH.
Qed.

(** A run of arbitrary frames, with or without faces, in terms of the
    detections the callback looks at. *)
Lemma Component_runFrames_signals (frames : list (list Detection)) (s : Component.State) :
  let faces := firstFaces frames in
  let s' := Component.runFrames s frames in
  Component.lastEARRef s' = fold_left pushShift (map detectionEAR faces)
                              (Component.lastEARRef s) /\
  Component.lastPositionsRef s' = fold_left pushShift (map detectionNose faces)
                                    (Component.lastPositionsRef s) /\
  Component.blinkCountRef s'
  = snd (blinkTrace (Component.lastEARRef s) (Component.blinkCountRef s)
           (map detectionEAR faces)).
Proof.
  cbv zeta. revert s. induction frames as [ | f frames IH]; intros s.
  - cbn. auto.
  - unfold Component.runFrames in *. cbn [fold_left]. destruct f as [ | d rest].
    + cbn [firstFaces flat_map app]. fold (firstFaces frames).
      destruct (IH (fst (Component.handleVideoPlayTick s []))) as (H1 & H2 & H3).
      rewrite H1, H2, H3. cbn. auto.
    + cbn [firstFaces flat_map app map fold_left blinkTrace]. fold (firstFaces frames).
      destruct (IH (fst (Component.handleVideoPlayTick s (d :: rest)))) as (H1 & H2 & H3).
      rewrite H1, H2, H3. rewrite Component_tick_state.
      cbn [Component.lastEARRef Component.lastPositionsRef Component.blinkCountRef].
      auto.
Qed.

Lemma Forall_lastN {A : Type} (P : A -> Prop) (n : nat) (l : list A) :
  Forall P l -> Forall P (lastN n l).
Proof.
  intros H. unfold lastN. rewrite <- (firstn_skipn (length l - n) l) in H.
  apply Forall_app in H. tauto.
Qed.

(** X7: after any run of frames from the initial state, the EAR history of
    the component holds exactly the ratios of the last ten frames in which
    a face was found, oldest first, and the position history their nose
    positions; both windows hold at most ten entries, no stored ratio is
    negative, and the stored score is at most 1. *)
Theorem Component_windows_hold_last_ten (frames : list (list Detection)) :
  let s := Component.runFrames Component.initialState frames in
  let faces := firstFaces frames in
  Component.lastEARRef s = lastN 10 (map detectionEAR faces) /\
  Component.lastPositionsRef s = lastN 10 (map detectionNose faces) /\
  (length (Component.lastEARRef s) <= 10)%nat /\
  (length (Component.lastPositionsRef s) <= 10)%nat /\
  Forall (fun e => 0 <= e) (Component.lastEARRef s) /\
  Component.livenessScore s <= 1.
Proof.
  cbv zeta.
  destruct (Component_runFrames_signals frames Component.initialState) as (H1 & H2 & _).
  cbn [Component.initialState Component.lastEARRef Component.lastPositionsRef] in H1, H2.
  rewrite fold_pushShift_lastN in H1 by (cbn; lia).
  rewrite fold_pushShift_lastN in H2 by (cbn; lia). cbn [app] in H1, H2.
  rewrite H1, H2, !lastN_length.
  split; [ reflexivity | ]. split; [ reflexivity | ].
  split; [ lia | ]. split; [ lia | ]. split.
  - apply Forall_lastN. apply Forall_forall. intros e He.
    apply in_map_iff in He. destruct He as (d & <- & _).
    apply calculateEAR_nonneg.
  - clear H1 H2.
    assert (Hgen : forall fs s, Component.livenessScore s <= 1 ->
                     Component.livenessScore (Component.runFrames s fs) <= 1).
    { induction fs as [ | f fs IH]; intros s Hs.
      - exact Hs.
      - unfold Component.runFrames in *. cbn [fold_left]. apply IH.
        destruct f as [ | d rest].
        + exact Hs.
        + rewrite Component_tick_state. cbn [Component.livenessScore].
          unfold scoreOf. apply Rmin_r. }
    apply Hgen. cbn. lra.
Qed.

Lemma firstFaces_filter (frames : list (list Detection)) :
  firstFaces (filter faceFound frames) = firstFaces frames.
Proof.
  induction frames as [ | f frames IH].
  - reflexivity.
  - destruct f as [ | d rest]; cbn [filter faceFound].
    + exact IH.
    + cbn [firstFaces flat_map]. fold (firstFaces frames).
      fold (firstFaces (filter faceFound frames)). rewrite IH. reflexivity.
Qed.

(** X8: frames without a face leave no trace in the detectors: after a run
    the two histories, the blink count and the stored score are what they
    would be had the no-face frames never arrived.  In particular a blink
    edge is taken between the last two frames that had a face, however
    many no-face frames lie between them. *)
Theorem no_face_frames_leave_no_trace
    (s : Component.State) (frames : list (list Detection)) :
  sameSignals (Component.runFrames s frames)
              (Component.runFrames s (filter faceFound frames)).
Proof.
  assert (Hgen : forall fs s1 s2, sameSignals s1 s2 ->
            sameSignals (Component.runFrames s1 fs)
                        (Component.runFrames s2 (filter faceFound fs))).
  { induction fs as [ | f fs IH]; intros s1 s2 Hsame.
    - exact Hsame.
    - destruct f as [ | d rest]; cbn [filter faceFound];
        unfold Component.runFrames in *; cbn [fold_left].
      + apply IH. unfold sameSignals in *. cbn. exact Hsame.
      + apply IH. rewrite !Component_tick_state.
        destruct Hsame as (Hh & Hp & Hc & _). rewrite Hh, Hp, Hc.
        unfold sameSignals. auto. }
  apply Hgen. unfold sameSignals. auto.
Qed.

(** ** Consequences of the double push in part_000 *)

Lemma doubled_app (a b : list R) : doubled (a ++ b) = doubled a ++ doubled b.
Proof. unfold doubled. apply flat_map_app. Qed.

Lemma doubled_length (l : list R) : length (doubled l) = (2 * length l)%nat.
Proof.
  induction l as [ | a l IH]; [ reflexivity | ].
  cbn [doubled flat_map app length]. fold (doubled l). rewrite IH. lia.
Qed.

Lemma pushShift_twice_doubled (l : list R) (e : R) :
  (length l <= 5)%nat ->
  pushShift (pushShift (doubled l) e) e = doubled (lastN 5 (l ++ [e])).
Proof.
  intros Hlen.
  assert (Hd : (length (doubled l) <= 10)%nat) by (rewrite doubled_length; lia).
  destruct (Nat.eq_dec (length l) 5) as [H5 | Hn5].
  - destruct l as [ | a l']; [ cbn in H5; lia | ].
    cbn [length] in H5.
    assert (Hl' : length l' = 4%nat) by lia.
    assert (Hlast : lastN 5 ((a :: l') ++ [e]) = l' ++ [e]).
    { unfold lastN. rewrite length_app. cbn [length].
      replace (S (length l') + 1 - 5)%nat with 1%nat by lia. reflexivity. }
    rewrite Hlast.
    destruct (pushShift_cases (doubled (a :: l')) e Hd) as [[Hlt _] | [_ ->]];
      [ rewrite doubled_length in Hlt; cbn [length] in Hlt; lia | ].
    cbn [doubled flat_map app tl]. fold (doubled l').
    assert (H10 : length (a :: doubled l' ++ [e]) = 10%nat).
    { cbn [length]. rewrite length_app, doubled_length. cbn [length]. lia. }
    destruct (pushShift_cases (a :: doubled l' ++ [e]) e) as [[Hlt _] | [_ ->]];
      [ lia | lia | ].
    cbn [tl]. rewrite <- app_assoc. cbn [app].
    rewrite doubled_app. reflexivity.
  - assert (Hlt : (length l < 5)%nat) by lia.
    destruct (pushShift_cases (doubled l) e Hd) as [[_ ->] | [Heq _]];
      [ | rewrite doubled_length in Heq; lia ].
    assert (H9 : (length (doubled l ++ [e]) < 10)%nat).
    { rewrite length_app, doubled_length. cbn [length]. lia. }
    destruct (pushShift_cases (doubled l ++ [e]) e) as [[_ ->] | [Heq _]];
      [ lia | | lia ].
    rewrite <- app_assoc. cbn [app].
    rewrite lastN_all by (rewrite length_app; cbn [length]; lia).
    rewrite doubled_app. reflexivity.
Qed.

(** X9: in part_000 every face frame enters the EAR history twice, so
    after any run from the initial state the ten-slot history holds the
    ratios of only the last five face frames, each written twice; the
    baseline is therefore taken over five frames, not ten. *)
Theorem Part000_history_holds_five_frames (frames : list (list Detection)) :
  Part000.lastEARRef (Part000.runFrames Part000.initialState frames)
  = doubled (lastN 5 (map detectionEAR (firstFaces frames))).
Proof.
  assert (Hgen : forall fs s l,
            (length l <= 5)%nat ->
            Part000.lastEARRef s = doubled l ->
            Part000.lastEARRef (Part000.runFrames s fs)
            = doubled (lastN 5 (l ++ map detectionEAR (firstFaces fs)))).
  { induction fs as [ | f fs IH]; intros s l Hlen Hs.
    - cbn [firstFaces flat_map map]. rewrite app_nil_r, lastN_all by exact Hlen.
      exact Hs.
    - unfold Part000.runFrames in *. cbn [fold_left]. destruct f as [ | d rest].
      + cbn [firstFaces flat_map app]. fold (firstFaces fs).
        apply IH; [ exact Hlen | exact Hs ].
      + cbn [firstFaces flat_map app map]. fold (firstFaces fs).
        rewrite (IH _ (lastN 5 (l ++ [detectionEAR d]))).
        * rewrite lastN_app_lastN, <- app_assoc. reflexivity.
        * rewrite lastN_length. lia.
        * destruct (Part000_tick_face s d rest) as (Hh & _).
          rewrite Hh, Hs. apply pushShift_twice_doubled, Hlen. }
  apply (Hgen frames Part000.initialState []); [ cbn; lia | reflexivity ].
Qed.

Lemma Part000_tick_message (s : Part000.State) (d : Detection) (rest : list Detection) :
  Part000.blinkCountRef s = 0%nat ->
  Part000.message (fst (Part000.handleVideoPlayTick s (d :: rest))) = msgBlink 0 \/
  Part000.message (fst (Part000.handleVideoPlayTick s (d :: rest))) = msgPosition.
Proof.
  intros Hc.
  destruct (Part000_tick_publishes s d rest) as (_ & Hm). cbv zeta in Hm.
  destruct (Part000_detectBlink_effect
              (Part000.pushEAR s
                 (calculateEAR (getLeftEye (landmarks d)) (getRightEye (landmarks d))))
              (landmarks d)) as (_ & _ & Hr & _).
  cbn [Part000.pushEAR Part000.lastEARRef Part000.blinkCountRef] in Hr.
  rewrite fallingEdge_same_sample, Hc in Hr. cbn [Nat.add] in Hr.
  rewrite Hr in Hm. rewrite Hm. unfold guidance. cbn [Nat.ltb Nat.leb].
  destruct (Rltb 0.7 _); auto.
Qed.

(** X10: part_000 can never report a verified live face.  After any run
    of frames from the initial state its message is the start-up text,
    the no-face text, the request to position the face, or the request to
    blink with a count of 0 out of 2; it is never the verified message and
    never the request to move the head. *)
Theorem Part000_never_verifies (frames : list (list Detection)) :
  let m := Part000.message (Part000.runFrames Part000.initialState frames) in
  (m = "Starting face verification..."%string \/
   m = "No face detected. Please position your face in the center box."%string \/
   m = "Position your face in the box and blink naturally"%string \/
   m = "Please blink naturally (0/2 blinks)"%string) /\
  m <> "Live face verified! Natural movements detected."%string /\
  m <> "Please move your head slightly"%string.
Proof.
  cbv zeta.
  assert (Hgen : forall fs s,
            Part000.blinkCountRef s = 0%nat ->
            (Part000.message s = "Starting face verification..."%string \/
             Part000.message s = msgNoFace \/
             Part000.message s = msgPosition \/
             Part000.message s = msgBlink 0) ->
            let m := Part000.message (Part000.runFrames s fs) in
            m = "Starting face verification..."%string \/
            m = msgNoFace \/ m = msgPosition \/ m = msgBlink 0).
  { induction fs as [ | f fs IH]; intros s Hc Hm.
    - exact Hm.
    - unfold Part000.runFrames in *. cbn [fold_left]. apply IH.
      + rewrite Part000_tick_count. exact Hc.
      + destruct f as [ | d rest].
        * right. left. reflexivity.
        * destruct (Part000_tick_message s d rest Hc) as [-> | ->]; auto. }
  pose proof (Hgen frames Part000.initialState eq_refl (or_introl eq_refl)) as H.
  cbv zeta in H.
  change (msgBlink 0) with "Please blink naturally (0/2 blinks)"%string in H.
  unfold msgNoFace, msgPosition in H.
  split; [ exact H | ].
  split; intros Heq; rewrite Heq in H;
    destruct H as [H | [H | [H | H]]]; discriminate H.
Qed.

(** ** More on the baseline *)

Lemma descending_head_max (a : R) (t : list R) (x : R) :
  descending (a :: t) -> In x (a :: t) -> x <= a.
Proof.
  intros Hs Hin. inversion Hs as [ | ? ? _ Ha]; subst.
  destruct Hin as [<- | Hin]; [ lra | ].
  rewrite Forall_forall in Ha. apply Ha, Hin.
Qed.

Lemma descending_tail (a : R) (t : list R) : descending (a :: t) -> descending t.
Proof. intros Hs. inversion Hs; assumption. Qed.

(** A list has one descending arrangement only. *)
Lemma descending_perm_unique (l1 l2 : list R) :
  descending l1 -> descending l2 -> Permutation l1 l2 -> l1 = l2.
Proof.
  revert l2. induction l1 as [ | a t1 IH]; intros l2 H1 H2 Hp.
  - apply Permutation_nil in Hp. symmetry. exact Hp.
  - destruct l2 as [ | b t2].
    + apply Permutation_sym, Permutation_nil in Hp. discriminate.
    + assert (Hab : a = b).
      { assert (Hb : b <= a).
        { apply (descending_head_max a t1 b H1).
          eapply Permutation_in; [ apply Permutation_sym, Hp | left; reflexivity ]. }
        assert (Ha : a <= b).
        { apply (descending_head_max b t2 a H2).
          eapply Permutation_in; [ apply Hp | left; reflexivity ]. }
        lra. }
      subst b. f_equal.
      apply IH; [ eapply descending_tail, H1 | eapply descending_tail, H2 | ].
      eapply Permutation_cons_inv, Hp.
Qed.

Lemma sortDesc_perm_eq (h1 h2 : list R) :
  Permutation h1 h2 -> sortDesc h1 = sortDesc h2.
Proof.
  intros Hp. apply descending_perm_unique; try apply sortDesc_descending.
  eapply Permutation_trans; [ apply sortDesc_perm | ].
  eapply Permutation_trans; [ apply Hp | apply Permutation_sym, sortDesc_perm ].
Qed.

(** X11: the baseline depends on which samples the window holds, not on
    their order: two histories that are rearrangements of one another
    have the same baseline and the same blink threshold. *)
Theorem calculateBaselineEAR_order_independent (h1 h2 : list R) :
  Permutation h1 h2 ->
  calculateBaselineEAR h1 = calculateBaselineEAR h2 /\
  blinkThreshold h1 = blinkThreshold h2.
Proof.
  intros Hp. unfold blinkThreshold, calculateBaselineEAR.
  rewrite (sortDesc_perm_eq h1 h2 Hp). split; reflexivity.
Qed.

Lemma calculateBaselineEAR_order_independent_witness :
  calculateBaselineEAR [0.1; 0.3; 0.2] = calculateBaselineEAR [0.3; 0.1; 0.2].
Proof.
  apply (calculateBaselineEAR_order_independent [0.1; 0.3; 0.2] [0.3; 0.1; 0.2]).
  apply perm_swap.
Defined.

Lemma top3_insertDesc (x : R) (l : list R) :
  descending l ->
  (3 <= length l)%nat \/ 0 <= x ->
  sumR (firstn 3 l) <= sumR (firstn 3 (insertDesc x l)).
Proof.
  intros Hs Hx.
  destruct l as [ | a [ | b [ | c t]]].
  - destruct Hx as [Hx | Hx]; [ cbn in Hx; lia | ].
    cbn [insertDesc firstn]. rewrite !sumR_cons, sumR_nil. lra.
  - destruct Hx as [Hx | Hx]; [ cbn in Hx; lia | ].
    cbn [insertDesc]. destruct (Rle_dec a x); cbn [firstn];
      rewrite !sumR_cons, sumR_nil; lra.
  - destruct Hx as [Hx | Hx]; [ cbn in Hx; lia | ].
    cbn [insertDesc]. destruct (Rle_dec a x); [ | destruct (Rle_dec b x) ];
      cbn [firstn]; rewrite !sumR_cons, sumR_nil; lra.
  - assert (Hab : b <= a) by (apply (descending_head_max a _ b Hs); cbn; tauto).
    assert (Hbc : c <= b).
    { apply (descending_head_max b (c :: t) c); [ eapply descending_tail, Hs | cbn; tauto ]. }
    cbn [insertDesc].
    destruct (Rle_dec a x); [ | destruct (Rle_dec b x); [ | destruct (Rle_dec c x) ] ];
      cbn [firstn]; rewrite !sumR_cons, sumR_nil; lra.
Qed.

Lemma calculateBaselineEAR_snoc_le (history : list R) (x : R) :
  (3 <= length history)%nat \/ 0 <= x ->
  calculateBaselineEAR history <= calculateBaselineEAR (history ++ [x]).
Proof.
  intros Hx.
  assert (Hp : Permutation (history ++ [x]) (x :: history))
    by (apply Permutation_sym, Permutation_cons_append).
  unfold calculateBaselineEAR. rewrite (sortDesc_perm_eq _ _ Hp).
  cbn [sortDesc].
  pose proof (top3_insertDesc x (sortDesc history) (sortDesc_descending history)) as H.
  rewrite sortDesc_length in H. specialize (H Hx). lra.
Qed.

(** X13: as long as nothing is evicted, a new sample cannot lower the
    baseline: with three samples or more in the window, or with a new
    sample that is not negative, the baseline after appending is at least
    the baseline before. *)
Theorem calculateBaselineEAR_grows_while_filling (s : Component.State) (currentEAR : R) :
  (length (Component.lastEARRef s) < 10)%nat ->
  (3 <= length (Component.lastEARRef s))%nat \/ 0 <= currentEAR ->
  calculateBaselineEAR (Component.lastEARRef s)
  <= calculateBaselineEAR (Component.lastEARRef (Component.updateEARHistory s currentEAR)).
Proof.
  intros Hlen Hx. unfold Component.updateEARHistory. cbn [Component.lastEARRef].
  destruct (pushShift_cases (Component.lastEARRef s) currentEAR) as [[_ ->] | [Heq _]];
    [ lia | | lia ].
  apply calculateBaselineEAR_snoc_le, Hx.
Qed.

Lemma calculateBaselineEAR_grows_while_filling_witness :
  calculateBaselineEAR [0.30; 0.32]
  <= calculateBaselineEAR
       (Component.lastEARRef (Component.updateEARHistory afterTwoOpenFrames 0.05)).
Proof.
  apply (calculateBaselineEAR_grows_while_filling afterTwoOpenFrames 0.05).
  - cbn [afterTwoOpenFrames Component.lastEARRef length]. lia.
  - right. lra.
Defined.

(** ** More on blink counting *)

Lemma closedRun_steady_while_filling (ears h : list R) :
  (length h + length ears <= 10)%nat ->
  closedRun h ears -> steadyClosedRun h ears.
Proof.
  revert h. induction ears as [ | e rest IH]; intros h Hlen Hrun.
  - exact I.
  - cbn [length] in Hlen. cbn [closedRun] in Hrun. cbn [steadyClosedRun].
    destruct Hrun as (H3 & He & Hrest).
    assert (Hh' : length (pushShift h e) = S (length h))
      by (rewrite pushShift_length by lia; lia).
    split; [ exact He | ]. split.
    + destruct rest as [ | e2 rest']; [ exact I | ].
      cbn [length] in Hlen.
      destruct (pushShift_cases (pushShift h e) e2) as [[_ ->] | [Heq _]];
        [ lia | | lia ].
      unfold blinkThreshold.
      pose proof (calculateBaselineEAR_snoc_le (pushShift h e) e2 (or_introl H3)).
      lra.
    + apply IH; [ lia | exact Hrest ].
Qed.

(** X14: while the window is still filling, that is as long as no sample
    has been evicted, a run of closed-eye frames is counted once at most:
    if the history and the run together hold no more than ten samples and
    every frame of the run lies below its own blink threshold, the count
    grows by at most one over the run. *)
Theorem closure_counted_once_while_filling
    (s : Component.State) (ds : list Detection) :
  (length (Component.lastEARRef s) + length ds <= 10)%nat ->
  closedRun (Component.lastEARRef s) (map detectionEAR ds) ->
  let count' := Component.blinkCountRef (Component.runFrames s (faceFrames ds)) in
  (Component.blinkCountRef s <= count' <= Component.blinkCountRef s + 1)%nat.
Proof.
  intros Hlen Hrun. cbv zeta. rewrite Component_runFrames_count.
  apply blinkTrace_steady_bound, closedRun_steady_while_filling.
  - rewrite length_map. exact Hlen.
  - exact Hrun.
Qed.

Lemma closure_counted_once_while_filling_witness :
  (Component.blinkCountRef
     (Component.runFrames afterTwoOpenFrames (faceFrames [faceOf 0.05; faceOf 0.04]))
   <= 1)%nat.
Proof.
  apply (closure_counted_once_while_filling afterTwoOpenFrames [faceOf 0.05; faceOf 0.04]).
  - cbn [afterTwoOpenFrames Component.lastEARRef length]. lia.
  - cbn [map afterTwoOpenFrames Component.lastEARRef].
    rewrite !detectionEAR_faceOf by lra.
    do 2 (eapply closedRun_step;
          [ cbv [pushShift app length Nat.ltb Nat.leb tl]; reflexivity
          | cbn [length]; lia
          | unfold blinkThreshold, calculateBaselineEAR, sumR; reval; lra
          | ]).
    exact I.
Defined.

Lemma Forall_pushShift {A : Type} (P : A -> Prop) (h : list A) (x : A) :
  Forall P h -> P x -> Forall P (pushShift h x).
Proof.
  intros Hh Hx. unfold pushShift.
  assert (H : Forall P (h ++ [x])) by (apply Forall_app; auto).
  destruct (10 <? length (h ++ [x]))%nat; [ | exact H ].
  destruct (h ++ [x]) as [ | a t]; [ constructor | ].
  inversion H; assumption.
Qed.

Lemma sumR_nonneg (l : list R) : Forall (fun e => 0 <= e) l -> 0 <= sumR l.
Proof.
  induction 1 as [ | a l Ha Hl IH].
  - rewrite sumR_nil. lra.
  - rewrite sumR_cons. lra.
Qed.

Lemma calculateBaselineEAR_nonneg (h : list R) :
  Forall (fun e => 0 <= e) h -> 0 <= calculateBaselineEAR h.
Proof.
  intros Hh. unfold calculateBaselineEAR.
  assert (Hs : Forall (fun e => 0 <= e) (sortDesc h)).
  { eapply Permutation_Forall; [ apply Permutation_sym, sortDesc_perm | exact Hh ]. }
  assert (Ht : Forall (fun e => 0 <= e) (firstn 3 (sortDesc h))).
  { rewrite <- (firstn_skipn 3 (sortDesc h)) in Hs. apply Forall_app in Hs. tauto. }
  pose proof (sumR_nonneg _ Ht). lra.
Qed.

(** X15: a frame on which the component counts a blink is a frame it draws
    with closed eyes: when no stored ratio is negative, a growing blink
    count implies that the flag handed to [drawEyes] is true, the display
    threshold [baseline * 0.75] lying above the blink threshold
    [baseline * 0.65]. *)
Theorem counted_blink_is_drawn_closed
    (s : Component.State) (d : Detection) (rest : list Detection) :
  Forall (fun e => 0 <= e) (Component.lastEARRef s) ->
  Component.blinkCountRef (fst (Component.handleVideoPlayTick s (d :: rest)))
  <> Component.blinkCountRef s ->
  snd (Component.handleVideoPlayTick s (d :: rest)) = Some true.
Proof.
  intros Hpos Hcount.
  destruct (Component_tick_face s d rest) as (_ & Hc & Hflag).
  rewrite Hflag. rewrite Hc in Hcount.
  destruct (fallingEdge _ _) eqn:Hedge; [ | lia ].
  apply fallingEdge_spec in Hedge. destruct Hedge as (_ & _ & Hcur).
  pose proof (calculateEAR_nonneg (getLeftEye (landmarks d)) (getRightEye (landmarks d)))
    as He. fold (detectionEAR d) in He.
  assert (Hb : 0 <= calculateBaselineEAR
                      (pushShift (Component.lastEARRef s) (detectionEAR d))).
  { apply calculateBaselineEAR_nonneg, Forall_pushShift; assumption. }
  f_equal. apply Rltb_true. lra.
Qed.

Lemma counted_blink_is_drawn_closed_witness :
  snd (Component.handleVideoPlayTick afterTwoOpenFrames [faceOf 0.05]) = Some true.
Proof.
  apply (counted_blink_is_drawn_closed afterTwoOpenFrames (faceOf 0.05) []).
  - cbn [afterTwoOpenFrames Component.lastEARRef]. repeat constructor; lra.
  - destruct (Component_tick_face afterTwoOpenFrames (faceOf 0.05) []) as (_ & Hc & _).
    rewrite Hc. rewrite detectionEAR_faceOf by lra.
    cbn [afterTwoOpenFrames Component.lastEARRef Component.blinkCountRef].
    replace (pushShift [0.30; 0.32] 0.05) with [0.30; 0.32; 0.05] by reflexivity.
    unfold fallingEdge, blinkThreshold, calculateBaselineEAR, sumR, Rltb. reval.
    cbn. lia.
Defined.

Lemma blinkTrace_count_bound (ears h : list R) (count : nat) :
  (count <= snd (blinkTrace h count ears)
   <= count + (length h + length ears - Nat.max 2 (length h)))%nat.
Proof.
  revert h count. induction ears as [ | e rest IH]; intros h count.
  - cbn. lia.
  - cbn [blinkTrace length].
    specialize (IH (pushShift h e)
                   (count + (if fallingEdge (pushShift h e) e then 1 else 0))%nat).
    assert (Hlen : (length (pushShift h e) <= S (length h))%nat).
    { unfold pushShift. destruct (10 <? length (h ++ [e]))%nat.
      - destruct h; cbn [app tl length]; rewrite ?length_app; cbn [length]; lia.
      - rewrite length_app. cbn [length]. lia. }
    destruct (fallingEdge (pushShift h e) e) eqn:Hedge.
    + apply fallingEdge_spec in Hedge. destruct Hedge as (H3 & _). lia.
    + lia.
Qed.

(** X16: over any run of frames the blink count of the component never
    goes down, and it grows by at most one per frame that had a face;
    starting from the initial state the first two face frames can never
    be counted, the history being shorter than three samples. *)
Theorem blink_count_bounds_over_run
    (s : Component.State) (frames : list (list Detection)) :
  (Component.blinkCountRef s
   <= Component.blinkCountRef (Component.runFrames s frames)
   <= Component.blinkCountRef s + length (firstFaces frames))%nat /\
  (Component.blinkCountRef (Component.runFrames Component.initialState frames)
   <= length (firstFaces frames) - 2)%nat.
Proof.
  split.
  - destruct (Component_runFrames_signals frames s) as (_ & _ & Hc). rewrite Hc.
    pose proof (blinkTrace_count_bound (map detectionEAR (firstFaces frames))
                  (Component.lastEARRef s) (Component.blinkCountRef s)) as H.
    rewrite length_map in H. lia.
  - destruct (Component_runFrames_signals frames Component.initialState) as (_ & _ & Hc).
    rewrite Hc.
    pose proof (blinkTrace_count_bound (map detectionEAR (firstFaces frames))
                  (Component.lastEARRef Component.initialState)
                  (Component.blinkCountRef Component.initialState)) as H.
    rewrite length_map in H. cbn in H. cbn. lia.
Qed.

(** ** More on head movement *)

Lemma manhattanSum_cons2 (p q : Point) (rest : list Point) :
  manhattanSum (p :: q :: rest)
  = (Rabs (px q - px p) + Rabs (py q - py p)) + manhattanSum (q :: rest).
Proof. reflexivity. Qed.

Lemma manhattanSum_nonneg (l : list Point) : 0 <= manhattanSum l.
Proof.
  induction l as [ | p rest IH]; [ cbn; lra | ].
  destruct rest as [ | q rest']; [ cbn; lra | ].
  rewrite manhattanSum_cons2.
  pose proof (Rabs_pos (px q - px p)). pose proof (Rabs_pos (py q - py p)). lra.
Qed.

Lemma manhattanSum_zero_repeat (l : list Point) (p : Point) :
  manhattanSum (p :: l) = 0 -> p :: l = repeat p (S (length l)).
Proof.
  revert p. induction l as [ | q rest IH]; intros p Hz.
  - reflexivity.
  - rewrite manhattanSum_cons2 in Hz.
    pose proof (manhattanSum_nonneg (q :: rest)) as Hn.
    pose proof (Rabs_pos (px q - px p)) as Hx.
    pose proof (Rabs_pos (py q - py p)) as Hy.
    assert (Hx0 : Rabs (px q - px p) = 0) by lra.
    assert (Hy0 : Rabs (py q - py p) = 0) by lra.
    assert (Hq : q = p).
    { destruct (Req_dec (px q - px p) 0) as [Hdx | Hdx];
        [ | apply Rabs_no_R0 in Hdx; contradiction ].
      destruct (Req_dec (py q - py p) 0) as [Hdy | Hdy];
        [ | apply Rabs_no_R0 in Hdy; contradiction ].
      destruct p, q. cbn [px py] in *. f_equal; lra. }
    subst q. cbn [length repeat]. f_equal. apply IH. lra.
Qed.

Lemma movementOf_nonneg (l : list Point) : 0 <= movementOf l.
Proof.
  rewrite movementOf_manhattanSum.
  destruct (length l <? 2)%nat eqn:E; [ lra | ].
  apply Nat.ltb_ge in E.
  apply Rmult_le_pos; [ apply manhattanSum_nonneg | ].
  apply Rlt_le, Rinv_0_lt_compat, lt_0_INR. lia.
Qed.

Lemma movementOf_zero_iff (l : list Point) :
  movementOf l = 0 <-> exists p n, l = repeat p n.
Proof.
  split.
  - intros Hz. destruct l as [ | p rest]; [ exists (mkPoint 0 0), 0%nat; reflexivity | ].
    exists p, (S (length rest)). apply manhattanSum_zero_repeat.
    rewrite movementOf_manhattanSum in Hz.
    destruct (length (p :: rest) <? 2)%nat eqn:E.
    + destruct rest as [ | q rest']; [ reflexivity | cbn in E; discriminate ].
    + apply Nat.ltb_ge in E.
      assert (Hpos : 0 < INR (length (p :: rest))) by (apply lt_0_INR; lia).
      unfold Rdiv in Hz. apply Rmult_integral in Hz. destruct Hz as [Hz | Hz].
      * exact Hz.
      * exfalso. apply Rinv_0_lt_compat in Hpos. lra.
  - intros (p & n & ->). apply movementOf_repeat.
Qed.

(** X17: the value [detectMovement] returns is never negative, and it is
    0 exactly when every position of the window, the new one included,
    is the new nose position: any displacement between two consecutive
    frames of the window gives a positive value. *)
Theorem detectMovement_zero_iff_stationary (s : Component.State) (lm : Landmarks) :
  let r := Component.detectMovement s lm in
  0 <= snd r /\
  (snd r = 0 <->
   Forall (fun q => q = noseTip lm) (Component.lastPositionsRef (fst r))).
Proof.
  cbv zeta. unfold Component.detectMovement. cbn [fst snd Component.lastPositionsRef].
  rewrite point_eta.
  split; [ apply movementOf_nonneg | ].
  rewrite movementOf_zero_iff.
  destruct (pushShift_snoc (Component.lastPositionsRef s) (noseTip lm)) as [l Hl].
  rewrite Hl. split.
  - intros (p & n & Hrep).
    assert (Hp : noseTip lm = p).
    { apply (repeat_spec n p). rewrite <- Hrep. apply in_or_app. right. left. reflexivity. }
    rewrite Hrep. apply Forall_forall. intros q Hq.
    apply repeat_spec in Hq. congruence.
  - intros Hall. exists (noseTip lm), (length (l ++ [noseTip lm])).
    apply Forall_eq_repeat. eapply Forall_impl; [ | exact Hall ].
    intros q Hq. symmetry. exact Hq.
Qed.

Lemma manhattanSum_translate (dx dy : R) (l : list Point) :
  manhattanSum (map (translatePoint dx dy) l) = manhattanSum l.
Proof.
  induction l as [ | p rest IH]; [ reflexivity | ].
  destruct rest as [ | q rest']; [ reflexivity | ].
  cbn [map] in *. rewrite !manhattanSum_cons2, IH.
  unfold translatePoint; cbn [px py]. f_equal. f_equal; f_equal; ring.
Qed.

(** X18: the movement value does not depend on where in the image the
    nose is: moving every position of the window by the same offset
    leaves it unchanged. *)
Theorem movementOf_translation_invariant (dx dy : R) (positions : list Point) :
  movementOf (map (translatePoint dx dy) positions) = movementOf positions.
Proof.
  rewrite !movementOf_manhattanSum, length_map, manhattanSum_translate.
  reflexivity.
Qed.

(** ** More on the score and the message *)

Lemma Component_tick_published (s : Component.State) (d : Detection) (rest : list Detection) :
  let s' := fst (Component.handleVideoPlayTick s (d :: rest)) in
  let movement := movementOf (Component.lastPositionsRef s') in
  Component.livenessScore s'
  = scoreOf (Component.blinkCountRef s') movement (expressionChangeOf (expressions d)) /\
  Component.message s'
  = guidance (Component.livenessScore s') (Component.blinkCountRef s') movement.
Proof. cbv zeta. rewrite Component_tick_state. split; reflexivity. Qed.

Lemma guidance_verified_iff (score movement : R) (blinkCount : nat) :
  guidance score blinkCount movement = msgVerified <->
  0.7 < score /\ (2 <= blinkCount)%nat /\ 0.1 <= movement.
Proof.
  unfold guidance.
  destruct (Rltb 0.7 score) eqn:Hs.
  - apply Rltb_spec in Hs. destruct (blinkCount <? 2)%nat eqn:Hb.
    + apply Nat.ltb_lt in Hb. split; [ | lia ].
      unfold msgBlink, msgVerified. cbn [append]. discriminate.
    + apply Nat.ltb_ge in Hb. destruct (Rltb movement 0.1) eqn:Hm.
      * apply Rltb_spec in Hm. split; [ discriminate | lra ].
      * assert (Hm' : 0.1 <= movement).
        { destruct (Rle_dec 0.1 movement) as [H | H]; [ exact H | ].
          assert (Hlt : movement < 0.1) by lra.
          apply Rltb_spec in Hlt. congruence. }
        split; auto.
  - assert (Hs' : score <= 0.7).
    { destruct (Rle_dec score 0.7) as [H | H]; [ exact H | ].
      assert (Hlt : 0.7 < score) by lra. apply Rltb_spec in Hlt. congruence. }
    split; [ discriminate | lra ].
Qed.

(** X19: the component reports a verified live face on a frame exactly
    when, after that frame, at least two blinks are counted, the movement
    over the position window is at least 0.1 and the score is above 0.7. *)
Theorem verified_message_iff
    (s : Component.State) (d : Detection) (rest : list Detection) :
  let s' := fst (Component.handleVideoPlayTick s (d :: rest)) in
  Component.message s' = "Live face verified! Natural movements detected."%string <->
  (2 <= Component.blinkCountRef s')%nat /\
  0.1 <= movementOf (Component.lastPositionsRef s') /\
  0.7 < Component.livenessScore s'.
Proof.
  cbv zeta. destruct (Component_tick_published s d rest) as (_ & Hm).
  rewrite Hm. change "Live face verified! Natural movements detected."%string
    with msgVerified.
  rewrite guidance_verified_iff. tauto.
Qed.

Lemma expressionChangeOf_nonneg (e : Expressions) :
  0 <= happy e \/ 0 <= surprised e \/ 0 <= neutral e -> 0 <= expressionChangeOf e.
Proof.
  intros H. unfold expressionChangeOf.
  pose proof (Rmax_l (Rmax (happy e) (surprised e)) (neutral e)).
  pose proof (Rmax_r (Rmax (happy e) (surprised e)) (neutral e)).
  pose proof (Rmax_l (happy e) (surprised e)).
  pose proof (Rmax_r (happy e) (surprised e)).
  destruct H as [H | [H | H]]; lra.
Qed.

(** X20: on a face frame whose expression record has at least one
    non-negative entry, the score the component stores lies between 0 and
    1; with three blinks already counted it is above 0.7, so the message
    is no longer the request to position the face, and with four it is
    exactly 1. *)
Theorem score_range_and_blink_floor
    (s : Component.State) (d : Detection) (rest : list Detection) :
  0 <= happy (expressions d) \/ 0 <= surprised (expressions d)
    \/ 0 <= neutral (expressions d) ->
  let s' := fst (Component.handleVideoPlayTick s (d :: rest)) in
  0 <= Component.livenessScore s' <= 1 /\
  ((3 <= Component.blinkCountRef s)%nat ->
   0.7 < Component.livenessScore s' /\
   Component.message s' <> "Position your face in the box and blink naturally"%string) /\
  ((4 <= Component.blinkCountRef s)%nat -> Component.livenessScore s' = 1).
Proof.
  intros Hexpr. cbv zeta.
  destruct (Component_tick_published s d rest) as (Hs & Hm).
  pose proof (expressionChangeOf_nonneg _ Hexpr) as Hx.
  pose proof (movementOf_nonneg
                (Component.lastPositionsRef
                   (fst (Component.handleVideoPlayTick s (d :: rest))))) as Hmv.
  destruct (Component_tick_face s d rest) as (_ & Hc & _).
  assert (Hmono : (Component.blinkCountRef s
                   <= Component.blinkCountRef
                        (fst (Component.handleVideoPlayTick s (d :: rest))))%nat)
    by (rewrite Hc; lia).
  apply le_INR in Hmono.
  pose proof (pos_INR (Component.blinkCountRef
                         (fst (Component.handleVideoPlayTick s (d :: rest))))) as Hb0.
  rewrite Hm, Hs. unfold scoreOf.
  set (sum := INR _ * 0.3 + _ * 2 + _ * 0.3).
  assert (Hsum0 : 0 <= sum) by (unfold sum; lra).
  split; [ split; [ apply Rmin_glb; lra | apply Rmin_r ] | ].
  split.
  - intros H3. apply le_INR in H3. cbn [INR] in H3.
    assert (Hsum : 0.9 <= sum) by (unfold sum; lra).
    assert (Hmin : 0.7 < Rmin sum 1) by (apply Rmin_glb_lt; lra).
    split; [ exact Hmin | ].
    unfold guidance. rewrite (Rltb_true 0.7 (Rmin sum 1)) by lra.
    destruct (_ <? 2)%nat; [ unfold msgBlink; cbn [append]; discriminate | ].
    destruct (Rltb _ 0.1); discriminate.
  - intros H4. apply le_INR in H4. cbn [INR] in H4.
    apply Rmin_right. unfold sum. lra.
Qed.

Lemma score_range_and_blink_floor_witness :
  0 <= Component.livenessScore
         (fst (Component.handleVideoPlayTick afterTwoOpenFrames [faceOf 0.05])) <= 1.
Proof.
  apply (score_range_and_blink_floor afterTwoOpenFrames (faceOf 0.05) []).
  right. right. cbn [faceOf expressions neutral]. lra.
Defined.

(** X21: two counted blinks and a movement of at least 0.1 are enough:
    whenever, after a face frame whose expression record has a
    non-negative entry, the count is at least 2 and the movement at least
    0.1, the score is at least 0.8 and the component reports a verified
    live face, whatever the expression values are. *)
Theorem two_blinks_and_movement_verify
    (s : Component.State) (d : Detection) (rest : list Detection) :
  0 <= happy (expressions d) \/ 0 <= surprised (expressions d)
    \/ 0 <= neutral (expressions d) ->
  let s' := fst (Component.handleVideoPlayTick s (d :: rest)) in
  (2 <= Component.blinkCountRef s')%nat ->
  0.1 <= movementOf (Component.lastPositionsRef s') ->
  0.8 <= Component.livenessScore s' /\
  Component.message s' = "Live face verified! Natural movements detected."%string.
Proof.
  intros Hexpr. cbv zeta. intros Hb Hmv.
  pose proof (expressionChangeOf_nonneg _ Hexpr) as Hx.
  assert (Hscore : 0.8 <= Component.livenessScore
                            (fst (Component.handleVideoPlayTick s (d :: rest)))).
  { destruct (Component_tick_published s d rest) as (Hs & _). rewrite Hs.
    unfold scoreOf. apply le_INR in Hb. cbn [INR] in Hb.
    apply Rmin_glb; lra. }
  split; [ exact Hscore | ].
  destruct (Component_tick_published s d rest) as (_ & Hm). rewrite Hm.
  change "Live face verified! Natural movements detected."%string with msgVerified.
  apply guidance_verified_iff. repeat split; [ lra | exact Hb | exact Hmv ].
Qed.

Lemma two_blinks_and_movement_verify_witness :
  Component.message (fst (Component.handleVideoPlayTick twoBlinksCounted [movedFace]))
  = "Live face verified! Natural movements detected."%string.
Proof.
  apply (two_blinks_and_movement_verify twoBlinksCounted movedFace []).
  - right. right. cbn [movedFace expressions neutral]. lra.
  - destruct (Component_tick_face twoBlinksCounted movedFace []) as (_ & Hc & _).
    rewrite Hc. cbn [twoBlinksCounted Component.blinkCountRef]. lia.
  - rewrite Component_tick_state. cbn [Component.lastPositionsRef].
    cbn [twoBlinksCounted Component.lastPositionsRef movedFace detectionNose
         landmarks noseTip].
    replace (pushShift [mkPoint 0 0] (mkPoint 1 1)) with [mkPoint 0 0; mkPoint 1 1]
      by reflexivity.
    unfold movementOf. cbn [length Nat.ltb Nat.leb movementLoop px py INR].
    replace (1 - 0) with 1 by ring. rewrite Rabs_R1. lra.
Defined.

(** ** The two files on the same frames *)

Lemma Part000_tick_positions (s : Part000.State) (d : Detection) (rest : list Detection) :
  Part000.lastPositionsRef (fst (Part000.handleVideoPlayTick s (d :: rest)))
  = pushShift (Part000.lastPositionsRef s) (detectionNose d).
Proof.
  unfold Part000.handleVideoPlayTick.
  change ((Part000.getEyeAspectRatio (getLeftEye (landmarks d))
           + Part000.getEyeAspectRatio (getRightEye (landmarks d))) / 2)
    with (detectionEAR d).
  pose proof (Part000_detectBlink_effect (Part000.pushEAR s (detectionEAR d))
                (landmarks d)) as H.
  cbv zeta in H.
  destruct (Part000.detectBlink (Part000.pushEAR s (detectionEAR d)) (landmarks d))
    as [s2 blinkCount].
  cbn [fst snd] in H. destruct H as (_ & _ & _ & Hp & _).
  unfold Part000.detectMovement. cbn [fst Part000.setMessage Part000.setLivenessScore
                                       Part000.lastPositionsRef].
  rewrite Hp, point_eta. reflexivity.
Qed.

Lemma Part000_tick_score (s : Part000.State) (d : Detection) (rest : list Detection) :
  Part000.blinkCountRef s = 0%nat ->
  Part000.livenessScore (fst (Part000.handleVideoPlayTick s (d :: rest)))
  = scoreOf 0 (movementOf (pushShift (Part000.lastPositionsRef s) (detectionNose d)))
      (expressionChangeOf (expressions d)).
Proof.
  intros Hc.
  destruct (Part000_tick_publishes s d rest) as (Hs & _). cbv zeta in Hs.
  rewrite Hs.
  pose proof (Part000_detectBlink_effect
                (Part000.pushEAR s
                   (calculateEAR (getLeftEye (landmarks d)) (getRightEye (landmarks d))))
                (landmarks d)) as H.
  cbv zeta in H. destruct H as (_ & _ & Hr & Hp & _).
  cbn [Part000.pushEAR Part000.lastEARRef Part000.blinkCountRef
       Part000.lastPositionsRef] in Hr, Hp.
  rewrite fallingEdge_same_sample, Hc in Hr. cbn [Nat.add] in Hr.
  rewrite Hr. unfold Part000.detectMovement. cbn [snd Part000.lastPositionsRef].
  rewrite Hp, point_eta. reflexivity.
Qed.

(** X22: fed the same frames from their initial states, the two files keep
    the same window of nose positions, but part_000 counts no blink and
    so never stores a higher score than the component does. *)
Theorem Part000_below_component (frames : list (list Detection)) :
  let c := Component.runFrames Component.initialState frames in
  let p := Part000.runFrames Part000.initialState frames in
  Part000.lastPositionsRef p = Component.lastPositionsRef c /\
  (Part000.blinkCountRef p <= Component.blinkCountRef c)%nat /\
  Part000.livenessScore p <= Component.livenessScore c.
Proof.
  cbv zeta.
  assert (Hgen : forall fs c p,
            Part000.lastPositionsRef p = Component.lastPositionsRef c ->
            Part000.blinkCountRef p = 0%nat ->
            Part000.livenessScore p <= Component.livenessScore c ->
            Part000.lastPositionsRef (Part000.runFrames p fs)
            = Component.lastPositionsRef (Component.runFrames c fs) /\
            Part000.blinkCountRef (Part000.runFrames p fs) = 0%nat /\
            Part000.livenessScore (Part000.runFrames p fs)
            <= Component.livenessScore (Component.runFrames c fs)).
  { induction fs as [ | f fs IH]; intros c p Hpos Hcount Hscore.
    - auto.
    - unfold Part000.runFrames, Component.runFrames in *. cbn [fold_left].
      apply IH.
      + destruct f as [ | d rest]; [ exact Hpos | ].
        rewrite Part000_tick_positions, Component_tick_state, Hpos. reflexivity.
      + rewrite Part000_tick_count. exact Hcount.
      + destruct f as [ | d rest]; [ exact Hscore | ].
        rewrite (Part000_tick_score p d rest Hcount), Component_tick_state, Hpos.
        cbn [Component.livenessScore]. unfold scoreOf.
        apply Rle_min_compat_r.
        pose proof (pos_INR (Component.blinkCountRef c
                     + (if fallingEdge (pushShift (Component.lastEARRef c) (detectionEAR d))
                                       (detectionEAR d) then 1 else 0))) as Hn.
        cbn [INR]. lra. }
  destruct (Hgen frames Component.initialState Part000.initialState) as (H1 & H2 & H3);
    [ reflexivity | reflexivity | cbn; lra | ].
  rewrite H2. split; [ exact H1 | ]. split; [ lia | exact H3 ].
Qed.
